(** * TCCP: the Tightly-Coupled Capability Proof of src/tccp.cpp

    A shallow embedding of [tccp.cpp] (the generator [LCG], [CalculateSeed],
    [GenerateVirtualChallenge], [TCCP::ComputeProof], [TCCP::VerifyBlock])
    and the properties of it that the specification states.

    Conventions of the embedding:
    - [size_t] and [uint64_t] are 64 bits wide, [uint32_t] and [int] are 32
      bits wide; every conversion and every wrap-around is written out;
    - a byte vector or a script is a [list byte]; a [uint256] is a vector of
      exactly 32 bytes;
    - the host node's services the file calls but does not define (hashing,
      Merkle roots, serialized sizes, script building, the insecure random
      source, the magic tag) are the fields of the class [Host];
    - an access outside the bounds of a vector is the outcome [OutOfBounds],
      the [while (true)] loop runs on fuel and an exhausted budget is the
      outcome [OutOfFuel]. *)

From Stdlib Require Import ZArith Lia List Strings.Byte Eqdep_dec.
From stdpp Require Import base tactics option list numbers.

Local Open Scope Z_scope.

(** * Part I: the embedding *)

(** ** Machine integers *)

Definition SIZE_MAX : Z := 2 ^ 64 - 1.

Definition INT_MAX : Z := 2 ^ 31 - 1.

(** Conversion to [uint64_t] / [size_t]. *)
Definition to_uint64 (z : Z) : Z := z mod 2 ^ 64.

Definition to_size_t (z : Z) : Z := z mod 2 ^ 64.

(** Conversion to [uint32_t]. *)
Definition to_uint32 (z : Z) : Z := z mod 2 ^ 32.

(** Conversion to [int]: the value modulo [2^32] in the range of [int],
    which is what C++20 prescribes and what compilers did before it. *)
Definition to_int (z : Z) : Z := (z + 2 ^ 31) mod 2 ^ 32 - 2 ^ 31.

(** ** Bytes and 256-bit blobs *)

#[global] Instance byte_eq_dec : EqDecision byte := Byte.byte_eq_dec.

Definition byte_to_Z (b : byte) : Z := Z.of_N (Byte.to_N b).

(** The low 8 bits of an integer, as a byte. *)
Definition byte_of_Z (z : Z) : byte :=
  match Byte.of_N (Z.to_N (z mod 256)) with
  | Some b => b
  | None => x00
  end.

Record uint256 : Type := mk_uint256 {
  u256_bytes : list byte;
  u256_size : length u256_bytes = 32%nat
}.

(** A blob whose 32 bytes are all [b]. *)
Definition uint256_fill (b : byte) : uint256 :=
  {| u256_bytes := repeat b 32; u256_size := eq_refl |}.

(** [uint256()]: the all-zero value. *)
Definition uint256_zero : uint256 := uint256_fill x00.

(** [operator==] on blobs compares the 32 bytes. *)
Definition uint256_eqb (a b : uint256) : bool :=
  bool_decide (u256_bytes a = u256_bytes b).

(** Little-endian value of a byte string. *)
Fixpoint le_bytes_to_Z (bs : list byte) : Z :=
  match bs with
  | [] => 0
  | b :: bs' => byte_to_Z b + 256 * le_bytes_to_Z bs'
  end.

(** Modelled from the spec: [bit_cast<uint64_t>(seed)] of util/bit_cast.h,
    which is not part of the sources.  The specification says the state is
    the seed truncated to its low 64 bits by byte reinterpretation: the
    first eight bytes of the blob, read little-endian. *)
Definition bit_cast_uint64 (seed : uint256) : Z :=
  le_bytes_to_Z (take 8 (u256_bytes seed)).

(** The seed whose first byte is 1 and whose other bytes are 0. *)
Definition seed_one : uint256 :=
  {| u256_bytes := x01 :: repeat x00 31; u256_size := eq_refl |}.

(** ** The generator [LCG] *)

Record LCG : Type := mk_LCG { m_state : Z }.

(** [explicit LCG(const uint256& seed)] *)
Definition LCG_new (seed : uint256) : LCG :=
  {| m_state := bit_cast_uint64 seed |}.

(** [uint32_t next()]: the returned value and the generator afterwards. *)
Definition LCG_next (g : LCG) : Z * LCG :=
  let m := to_uint64 (1664525 * m_state g + 1013904223) in
  (to_uint32 (Z.shiftr m 32), {| m_state := m |}).

(** ** Outcomes of a run *)

(** A run ends with a value, or leaves the bounds of a vector (undefined
    behaviour in the source), or is still looping when the fuel is spent. *)

Inductive outcome (A : Type) : Type :=
| Done (a : A)
| OutOfBounds
| OutOfFuel.
Arguments Done {A} a.
Arguments OutOfBounds {A}.
Arguments OutOfFuel {A}.

#[global] Instance outcome_ret : MRet outcome := @Done.

#[global] Instance outcome_bind : MBind outcome :=
  fun A B (k : A -> outcome B) (m : outcome A) =>
    match m with
    | Done a => k a
    | OutOfBounds => OutOfBounds
    | OutOfFuel => OutOfFuel
    end.

(** ** Vectors with checked accesses *)

(** [v[i]] *)
Definition vector_at {A : Type} (v : list A) (i : nat) : outcome A :=
  match v !! i with
  | Some x => Done x
  | None => OutOfBounds
  end.

(** [std::vector<T>(v.begin() + first, v.begin() + last)] *)
Definition vector_range {A : Type} (v : list A) (first last : nat)
  : outcome (list A) :=
  if bool_decide (first <= last <= length v)%nat
  then Done (take (last - first) (drop first v))
  else OutOfBounds.

(** [v.erase(v.begin() + pos)], [pos] an [int] *)
Definition vector_erase {A : Type} (v : list A) (pos : Z) : outcome (list A) :=
  if bool_decide (0 <= pos < Z.of_nat (length v))
  then Done (delete (Z.to_nat pos) v)
  else OutOfBounds.

(** [v[i] = x] *)
Definition vector_set {A : Type} (v : list A) (i : nat) (x : A)
  : outcome (list A) :=
  if bool_decide (i < length v)%nat then Done (<[i:=x]> v) else OutOfBounds.

(** [uint256(const std::vector<unsigned char>&)] copies exactly 32 bytes out
    of its argument. *)
Definition uint256_of_vector (v : list byte) : outcome uint256 :=
  match decide (length v = 32%nat) with
  | left H => Done (mk_uint256 v H)
  | right _ => OutOfBounds
  end.

(** ** Transactions, blocks and the consensus parameters *)

Abbreviation CScript := (list byte).

Definition OP_RETURN : byte := x6a.

(** [COutPoint]: the fields [hash] and [n]. *)
Record COutPoint : Type := mk_COutPoint {
  outpoint_hash : uint256;
  outpoint_n : Z
}.

Record CTxIn : Type := mk_CTxIn {
  prevout : COutPoint;
  scriptSig : CScript;
  nSequence : Z
}.

Record CTxOut : Type := mk_CTxOut {
  nValue : Z;
  scriptPubKey : CScript
}.

(** A transaction value, mutable or not: [MakeTransactionRef] and the
    [CMutableTransaction(const CTransaction&)] copy keep the four fields. *)
Record CTransaction : Type := mk_CTransaction {
  nVersion : Z;
  vin : list CTxIn;
  vout : list CTxOut;
  nLockTime : Z
}.

(** Of a block [VerifyBlock] reads the transactions only. *)
Record CBlock : Type := mk_CBlock { vtx : list CTransaction }.

(** Of a block index [VerifyBlock] reads the block hash only. *)
Record CBlockIndex : Type := mk_CBlockIndex { GetBlockHash : uint256 }.

(** Of [Consensus::Params] the file reads [nTCCPChallengeSize] only. *)
Record Params : Type := mk_Params { nTCCPChallengeSize : Z }.

(** ** The host node *)

(** What [tccp.cpp] takes from the headers it includes. *)
Class Host : Type := {
  (** the state of the insecure random context behind [InsecureRand256()] *)
  Rand : Type;
  InsecureRand256 : Rand -> uint256 * Rand;
  (** [CHash256]: the double hash of everything written to the hasher *)
  Hash256 : list byte -> uint256;
  (** [CTransaction::GetTotalSize] and [CTransaction::GetHash] *)
  GetTotalSize : CTransaction -> Z;
  GetHash : CTransaction -> uint256;
  (** consensus/merkle.h *)
  ComputeMerkleRoot : list uint256 -> uint256;
  BlockMerkleRoot : list CTransaction -> uint256;
  (** [CScript::operator<<] on an [int64_t], an opcode and a byte vector *)
  push_int64 : CScript -> Z -> CScript;
  push_opcode : CScript -> byte -> CScript;
  push_data : CScript -> list byte -> CScript;
  (** the sequence number of a default-constructed [CTxIn] *)
  nSequence_default : Z;
  (** the magic tag of a commitment *)
  TCCP_MAGIC_BYTES : list byte
}.

Section TCCP.

Context {host : Host}.

(** ** [CalculateSeed] *)

Definition CalculateSeed (prevBlockHash merkleRoot : uint256) : uint256 :=
  Hash256 (u256_bytes prevBlockHash ++ u256_bytes merkleRoot).

(** ** [GenerateVirtualChallenge] *)

(** The loop [for (i = 0; i < data.size(); ++i) data[i] = prng.next() & 0xFF]
    over the [k] bytes still to fill. *)
Fixpoint draw_data (k : nat) (prng : LCG) : list byte * LCG :=
  match k with
  | O => ([], prng)
  | S k' =>
      let '(r, prng) := LCG_next prng in
      let '(rest, prng) := draw_data k' prng in
      (byte_of_Z (Z.land r 255) :: rest, prng)
  end.

(** One pass of the loop body up to [MakeTransactionRef(mtx)]: the
    transaction built, the generator and the random context afterwards.
    The operands of [CScript() << prng.next() << prng.next()] are evaluated
    left to right. *)
Definition virtual_tx (prng : LCG) (rng : Rand) : CTransaction * LCG * Rand :=
  let '(h, rng) := InsecureRand256 rng in
  let '(r0, prng) := LCG_next prng in
  let '(r1, prng) := LCG_next prng in
  let '(r2, prng) := LCG_next prng in
  let '(data, prng) := draw_data 32 prng in
  ({| nVersion := 1;
      vin := [ {| prevout := {| outpoint_hash := h;
                                outpoint_n := to_uint32 (r0 mod 100) |};
                  scriptSig := push_int64 (push_int64 [] r1) r2;
                  nSequence := nSequence_default |} ];
      vout := [ {| nValue := 0;
                   scriptPubKey := push_data (push_opcode [] OP_RETURN) data |} ];
      nLockTime := 0 |},
   prng, rng).

(** [const size_t txSize = tx->GetTotalSize()] *)
Definition txSize (tx : CTransaction) : Z := to_size_t (GetTotalSize tx).

(** The [while (true)] loop, [fuel] passes at most. *)
Fixpoint GenerateVirtualChallenge_loop (fuel : nat) (maxSize : Z)
    (prng : LCG) (virtualTxs : list CTransaction) (currentSize : Z)
    (rng : Rand) : outcome (list CTransaction * Rand) :=
  match fuel with
  | O => OutOfFuel
  | S fuel' =>
      let '(tx, prng, rng) := virtual_tx prng rng in
      if to_size_t (currentSize + txSize tx) >? maxSize
      then Done (virtualTxs, rng)
      else GenerateVirtualChallenge_loop fuel' maxSize prng
             (virtualTxs ++ [tx]) (to_size_t (currentSize + txSize tx)) rng
  end.

Definition GenerateVirtualChallenge (fuel : nat) (seed : uint256)
    (maxSize : Z) (rng : Rand) : outcome (list CTransaction * Rand) :=
  GenerateVirtualChallenge_loop fuel maxSize (LCG_new seed) [] 0 rng.

(** ** [TCCP::ComputeProof] *)

Definition ComputeProof (fuel : nat)
    (prevBlockHash provisionalMerkleRoot : uint256) (params : Params)
    (rng : Rand) : outcome (uint256 * Rand) :=
  let seed := CalculateSeed prevBlockHash provisionalMerkleRoot in
  '(v_chal, rng) ← GenerateVirtualChallenge fuel seed
                      (to_size_t (nTCCPChallengeSize params)) rng;
  match v_chal with
  | [] => Done (uint256_zero, rng)
  | _ :: _ => Done (ComputeMerkleRoot (map GetHash v_chal), rng)
  end.

(** ** [TCCP::VerifyBlock] *)

(** Lines 94 to 96: the bytes after the two-byte prefix when [script] is a
    commitment, [None] when it is not.  [&&] evaluates its right operand
    only when the left one holds. *)
Definition commitment_data (script : CScript) : outcome (option (list byte)) :=
  if bool_decide (length script = 38%nat) then
    b0 ← vector_at script 0;
    if bool_decide (b0 = OP_RETURN) then
      b1 ← vector_at script 1;
      if bool_decide (b1 = x24) then
        data ← vector_range script 2 (length script);
        tag ← vector_range data 0 4;
        if bool_decide (tag = TCCP_MAGIC_BYTES)
        then Done (Some data)
        else Done None
      else Done None
    else Done None
  else Done None.

(** Line 98: [uint256(std::vector<unsigned char>(data.begin() + 4, data.end()))] *)
Definition commitment_proof (data : list byte) : outcome uint256 :=
  body ← vector_range data 4 (length data);
  uint256_of_vector body.

(** How the scan of the coinbase outputs ends: by [return false] inside the
    loop, or at the end of the vector with the two variables. *)
Inductive scan_result : Type :=
| ScanReject
| ScanEnd (submittedProof : uint256) (commitmentOutIndex : Z).

(** The loop of lines 92 to 102 over the outputs from index [i] on. *)
Fixpoint scan_outputs (outs : list CTxOut) (i : nat)
    (submittedProof : uint256) (commitmentOutIndex : Z) : outcome scan_result :=
  match outs with
  | [] => Done (ScanEnd submittedProof commitmentOutIndex)
  | out :: outs' =>
      m ← commitment_data (scriptPubKey out);
      match m with
      | Some data =>
          if bool_decide (commitmentOutIndex <> -1) then Done ScanReject
          else
            p ← commitment_proof data;
            scan_outputs outs' (S i) p (to_int (Z.of_nat i))
      | None => scan_outputs outs' (S i) submittedProof commitmentOutIndex
      end
  end.

Definition VerifyBlock (fuel : nat) (block : CBlock)
    (pindexPrev : option CBlockIndex) (params : Params) (rng : Rand)
  : outcome (bool * Rand) :=
  match pindexPrev with
  | None => Done (true, rng)
  | Some prev =>
      coinbaseTx ← vector_at (vtx block) 0;
      r ← scan_outputs (vout coinbaseTx) 0 uint256_zero (-1);
      match r with
      | ScanReject => Done (false, rng)
      | ScanEnd submittedProof commitmentOutIndex =>
          if bool_decide (commitmentOutIndex = -1) then Done (false, rng)
          else
            vout' ← vector_erase (vout coinbaseTx) commitmentOutIndex;
            let mtx_coinbase :=
              {| nVersion := nVersion coinbaseTx; vin := vin coinbaseTx;
                 vout := vout'; nLockTime := nLockTime coinbaseTx |} in
            vtx_temp ← vector_set (vtx block) 0 mtx_coinbase;
            let M_real_reconstructed := BlockMerkleRoot vtx_temp in
            '(expectedProof, rng) ←
              ComputeProof fuel (GetBlockHash prev) M_real_reconstructed
                params rng;
            Done (uint256_eqb submittedProof expectedProof, rng)
      end
  end.

(** ** The vocabulary of the properties *)

(** A transaction that one pass of the loop can build. *)
Definition synthetic (tx : CTransaction) : Prop :=
  exists prng rng, (virtual_tx prng rng).1.1 = tx.

(** The first [k] transactions the loop builds from a generator and a random
    context, and the one it builds after them. *)
Fixpoint candidates (k : nat) (prng : LCG) (rng : Rand) : list CTransaction :=
  match k with
  | O => []
  | S k' =>
      let '(tx, prng', rng') := virtual_tx prng rng in
      tx :: candidates k' prng' rng'
  end.

Fixpoint candidate (k : nat) (prng : LCG) (rng : Rand) : CTransaction :=
  let '(tx, prng', rng') := virtual_tx prng rng in
  match k with
  | O => tx
  | S k' => candidate k' prng' rng'
  end.

Fixpoint total_size (txs : list CTransaction) : Z :=
  match txs with
  | [] => 0
  | tx :: txs' => txSize tx + total_size txs'
  end.

(** The layout of a commitment script, in the words of the specification:
    38 bytes in all, the marker opcode, the push length 0x24, the magic tag
    in bytes 2 to 5. *)
Definition commitment_layout (script : CScript) : Prop :=
  length script = 38%nat
  /\ script !! 0%nat = Some OP_RETURN
  /\ script !! 1%nat = Some x24
  /\ take 4 (drop 2 script) = TCCP_MAGIC_BYTES.

#[global] Instance commitment_layout_dec script :
  Decision (commitment_layout script).
Proof. unfold commitment_layout. apply _. Defined.

Definition is_commitment (out : CTxOut) : Prop :=
  commitment_layout (scriptPubKey out).

#[global] Instance is_commitment_dec out : Decision (is_commitment out).
Proof. unfold is_commitment. apply _. Defined.

(** The number of outputs that match the layout. *)
Definition count_commitments (outs : list CTxOut) : nat :=
  length (filter is_commitment outs).

(** Modelled from the spec: the encoder of CommitmentCodec, which the file
    does not contain.  The script is the marker byte, the push length 0x24,
    the magic tag and the 32 bytes of the proof. *)
Definition encode_commitment (proof : uint256) : CScript :=
  [OP_RETURN; x24] ++ TCCP_MAGIC_BYTES ++ u256_bytes proof.

(** An output that carries the commitment to [proof]. *)
Definition commitment_output (proof : uint256) : CTxOut :=
  {| nValue := 0; scriptPubKey := encode_commitment proof |}.

End TCCP.

(** An output with an empty script. *)
Definition plain_output : CTxOut := {| nValue := 0; scriptPubKey := [] |}.

(** A coinbase with the given outputs. *)
Definition coinbase_of (outs : list CTxOut) : CTransaction :=
  {| nVersion := 1; vin := []; vout := outs; nLockTime := 0 |}.

(** A host with another Merkle-root service in place of its own. *)
Definition with_merkle (h : Host) (merkle : list uint256 -> uint256) : Host :=
  {| Rand := @Rand h;
     InsecureRand256 := @InsecureRand256 h;
     Hash256 := @Hash256 h;
     GetTotalSize := @GetTotalSize h;
     GetHash := @GetHash h;
     ComputeMerkleRoot := merkle;
     BlockMerkleRoot := @BlockMerkleRoot h;
     push_int64 := @push_int64 h;
     push_opcode := @push_opcode h;
     push_data := @push_data h;
     nSequence_default := @nSequence_default h;
     TCCP_MAGIC_BYTES := @TCCP_MAGIC_BYTES h |}.

(** ** A reference host *)

(** A host to run the embedding on: scripts and serialized sizes follow the
    node's wire format, the three hashing services are stand-ins that read
    every byte they are given, and the random source is a parameter. *)
Module Reference.

(** The length of a size prefix on the wire. *)
Definition compact_size_len (n : nat) : Z :=
  if Z.of_nat n <? 253 then 1
  else if Z.of_nat n <=? 65535 then 3
  else if Z.of_nat n <=? 4294967295 then 5
  else 9.

Definition txin_size (i : CTxIn) : Z :=
  32 + 4 + compact_size_len (length (scriptSig i))
  + Z.of_nat (length (scriptSig i)) + 4.

Definition txout_size (o : CTxOut) : Z :=
  8 + compact_size_len (length (scriptPubKey o))
  + Z.of_nat (length (scriptPubKey o)).

Fixpoint sum_sizes {A : Type} (f : A -> Z) (l : list A) : Z :=
  match l with
  | [] => 0
  | x :: l' => f x + sum_sizes f l'
  end.

Definition serialized_size (tx : CTransaction) : Z :=
  4 + compact_size_len (length (vin tx)) + sum_sizes txin_size (vin tx)
  + compact_size_len (length (vout tx)) + sum_sizes txout_size (vout tx) + 4.

(** The bytes of a magnitude, least significant first, at most [k] of them. *)
Fixpoint magnitude_bytes (k : nat) (v : Z) : list byte :=
  match k with
  | O => []
  | S k' =>
      if v =? 0 then []
      else byte_of_Z (Z.land v 255) :: magnitude_bytes k' (Z.shiftr v 8)
  end.

(** The script-number encoding of an integer. *)
Definition scriptnum_serialize (v : Z) : list byte :=
  let bs := magnitude_bytes 8 (Z.abs v) in
  match rev bs with
  | [] => []
  | top :: _ =>
      if Z.testbit (byte_to_Z top) 7
      then bs ++ [if v <? 0 then x80 else x00]
      else if v <? 0
           then removelast bs ++ [byte_of_Z (Z.lor (byte_to_Z top) 128)]
           else bs
  end.

Definition script_push_data (s : CScript) (d : list byte) : CScript :=
  let n := Z.of_nat (length d) in
  let prefix :=
    if n <? 76 then [byte_of_Z n]
    else if n <=? 255 then [x4c; byte_of_Z n]
    else if n <=? 65535 then [x4d; byte_of_Z n; byte_of_Z (Z.shiftr n 8)]
    else [x4e; byte_of_Z n; byte_of_Z (Z.shiftr n 8);
          byte_of_Z (Z.shiftr n 16); byte_of_Z (Z.shiftr n 24)] in
  s ++ prefix ++ d.

Definition script_push_opcode (s : CScript) (op : byte) : CScript := s ++ [op].

Definition script_push_int64 (s : CScript) (v : Z) : CScript :=
  if (v =? -1) || ((1 <=? v) && (v <=? 16)) then s ++ [byte_of_Z (v + 80)]
  else if v =? 0 then s ++ [x00]
  else script_push_data s (scriptnum_serialize v).

(** A stand-in for a hash: 32 differently salted running sums over the
    bytes, in their order. *)
Definition mix (salt : Z) (bs : list byte) : Z :=
  fold_left (fun h b => (h * 33 + byte_to_Z b + salt) mod 4294967296) bs
    (5381 + salt).

Definition digest (bs : list byte) : uint256 :=
  {| u256_bytes :=
       map (fun i => byte_of_Z (Z.shiftr (mix (Z.of_nat i) bs) 8)) (seq 0 32);
     u256_size := eq_refl |}.

Definition txin_bytes (i : CTxIn) : list byte :=
  u256_bytes (outpoint_hash (prevout i))
  ++ [byte_of_Z (outpoint_n (prevout i))] ++ scriptSig i.

Definition tx_bytes (tx : CTransaction) : list byte :=
  byte_of_Z (nVersion tx)
  :: concat (map txin_bytes (vin tx)) ++ concat (map scriptPubKey (vout tx)).

Definition tx_hash (tx : CTransaction) : uint256 := digest (tx_bytes tx).

(** One leaf is its own root, as in the node's Merkle tree. *)
Definition merkle_root (leaves : list uint256) : uint256 :=
  match leaves with
  | [] => uint256_zero
  | [leaf] => leaf
  | _ => digest (concat (map u256_bytes leaves))
  end.

(** A four-byte tag to run the examples with (the letters TCCP); the
    constant of the node is not in the sources. *)
Definition magic : list byte := [x54; x43; x43; x50].

Definition make (R : Type) (draw : R -> uint256 * R) : Host :=
  {| Rand := R;
     InsecureRand256 := draw;
     Hash256 := digest;
     GetTotalSize := serialized_size;
     GetHash := tx_hash;
     ComputeMerkleRoot := merkle_root;
     BlockMerkleRoot := fun vtx => merkle_root (map tx_hash vtx);
     push_int64 := script_push_int64;
     push_opcode := script_push_opcode;
     push_data := script_push_data;
     nSequence_default := 4294967295;
     TCCP_MAGIC_BYTES := magic |}.

(** A random source that answers with its call count. *)
Definition counting : Host :=
  make nat (fun k => (uint256_fill (byte_of_Z (Z.of_nat k)), S k)).

(** A random source pinned to one value. *)
Definition pinned : Host := make unit (fun _ => (uint256_zero, tt)).

End Reference.

(** The proof of the block of the example below. *)
Definition example_expected : uint256 :=
  Eval vm_compute in
    match ComputeProof (host := Reference.pinned) 8 seed_one
            (@BlockMerkleRoot Reference.pinned
               [coinbase_of [plain_output; plain_output]])
            {| nTCCPChallengeSize := 500 |} tt with
    | Done (p, _) => p
    | _ => uint256_zero
    end.

(** ** The vocabulary of the further properties *)

(** The random context after [k] calls of [InsecureRand256()]. *)
Fixpoint draws {host : Host} (k : nat) (rng : Rand) : Rand :=
  match k with
  | O => rng
  | S k' => draws k' (snd (InsecureRand256 rng))
  end.

(** The generator after [k] calls of [next()]. *)
Fixpoint LCG_skip (k : nat) (g : LCG) : LCG :=
  match k with
  | O => g
  | S k' => LCG_skip k' (snd (LCG_next g))
  end.

(** A transaction with the hash of every spent output set to zero. *)
Definition clear_prevout_hash (tx : CTransaction) : CTransaction :=
  {| nVersion := nVersion tx;
     vin := map (fun i => {| prevout :=
                               {| outpoint_hash := uint256_zero;
                                  outpoint_n := outpoint_n (prevout i) |};
                             scriptSig := scriptSig i;
                             nSequence := nSequence i |}) (vin tx);
     vout := vout tx;
     nLockTime := nLockTime tx |}.

(** What lines 46 to 57 fix of a transaction: version 1, lock time 0, one
    input that spends an output numbered below 100 with the default sequence
    number, one output of value zero whose script is [OP_RETURN] and a push
    of 32 bytes. *)
Definition virtual_shape {host : Host} (tx : CTransaction) : Prop :=
  nVersion tx = 1
  /\ nLockTime tx = 0
  /\ (exists h n sig,
        vin tx = [ {| prevout := {| outpoint_hash := h; outpoint_n := n |};
                      scriptSig := sig;
                      nSequence := nSequence_default |} ]
        /\ 0 <= n < 100)
  /\ (exists data,
        length data = 32%nat
        /\ vout tx = [ {| nValue := 0;
                          scriptPubKey :=
                            push_data (push_opcode [] OP_RETURN) data |} ]).

(** A host with another magic tag in place of its own. *)
Definition with_magic (h : Host) (tag : list byte) : Host :=
  {| Rand := @Rand h;
     InsecureRand256 := @InsecureRand256 h;
     Hash256 := @Hash256 h;
     GetTotalSize := @GetTotalSize h;
     GetHash := @GetHash h;
     ComputeMerkleRoot := @ComputeMerkleRoot h;
     BlockMerkleRoot := @BlockMerkleRoot h;
     push_int64 := @push_int64 h;
     push_opcode := @push_opcode h;
     push_data := @push_data h;
     nSequence_default := @nSequence_default h;
     TCCP_MAGIC_BYTES := tag |}.

(** * Part II: the properties *)

(** ** Facts about blobs and machine integers *)

Lemma uint256_eq (a b : uint256) : u256_bytes a = u256_bytes b -> a = b.
Proof.
  destruct a as [xs Hx], b as [ys Hy]; simpl; intros ->.
  f_equal. apply UIP_dec. decide equality.
Qed.

Lemma uint256_eqb_true (a b : uint256) : uint256_eqb a b = true <-> a = b.
Proof.
  unfold uint256_eqb. rewrite bool_decide_eq_true. split.
  - apply uint256_eq.
  - now intros ->.
Qed.

Lemma uint256_eqb_refl (a : uint256) : uint256_eqb a a = true.
Proof. now apply uint256_eqb_true. Qed.

Lemma to_size_t_range z : 0 <= to_size_t z <= SIZE_MAX.
Proof.
  unfold to_size_t, SIZE_MAX.
  pose proof (Z.mod_pos_bound z (2 ^ 64)). lia.
Qed.

Lemma to_size_t_small z : 0 <= z <= SIZE_MAX -> to_size_t z = z.
Proof. unfold to_size_t, SIZE_MAX. intros. apply Z.mod_small. lia. Qed.

Lemma to_int_small z : - 2 ^ 31 <= z <= INT_MAX -> to_int z = z.
Proof.
  unfold to_int, INT_MAX. intros.
  rewrite Z.mod_small by lia. lia.
Qed.

Lemma to_int_not_minus_one (j : Z) : 0 <= j <= 2 ^ 32 - 2 -> to_int j <> -1.
Proof.
  intros Hj. unfold to_int.
  destruct (Z_lt_le_dec j (2 ^ 31)) as [Hlo|Hhi].
  - rewrite Z.mod_small by lia. lia.
  - replace (j + 2 ^ 31) with (j - 2 ^ 31 + 1 * 2 ^ 32) by lia.
    rewrite Z_mod_plus_full, Z.mod_small by lia. lia.
Qed.

(** ** The generator is bit-exact *)

(** C8. One call of [next()] on any state [s] leaves the state
    [(1664525 * s + 1013904223) mod 2^64] and returns the upper 32 bits of
    that new state (its quotient by [2^32], whose bit [i] is bit [i + 32] of
    the state, and which fits 32 bits).  In particular a seed whose low 64
    bits are 1 makes the first output [(1664525 * 1 + 1013904223) >> 32],
    which is 0. *)
Theorem LCG_next_spec (s : Z) :
  let g' := snd (LCG_next {| m_state := s |}) in
  let out := fst (LCG_next {| m_state := s |}) in
  m_state g' = (1664525 * s + 1013904223) mod 2 ^ 64
  /\ out = m_state g' / 2 ^ 32
  /\ 0 <= out < 2 ^ 32
  /\ (forall i, 0 <= i -> Z.testbit out i = Z.testbit (m_state g') (i + 32))
  /\ (forall seed : uint256,
        m_state (LCG_new seed) = 1 ->
        fst (LCG_next (LCG_new seed)) = Z.shiftr (1664525 * 1 + 1013904223) 32
        /\ fst (LCG_next (LCG_new seed)) = 0).
Proof.
  cbn zeta. unfold LCG_next; simpl.
  set (m := to_uint64 (1664525 * s + 1013904223)).
  assert (Hm : 0 <= m < 2 ^ 64) by (apply Z.mod_pos_bound; lia).
  assert (Hq : 0 <= m / 2 ^ 32 < 2 ^ 32).
  { split; [apply Z.div_pos; lia|].
    apply Z.div_lt_upper_bound; [lia|].
    replace (2 ^ 32 * 2 ^ 32) with (2 ^ 64) by reflexivity. lia. }
  assert (Hout : to_uint32 (Z.shiftr m 32) = m / 2 ^ 32).
  { unfold to_uint32. rewrite Z.shiftr_div_pow2 by lia.
    apply Z.mod_small. exact Hq. }
  split; [reflexivity|]. split; [exact Hout|]. rewrite Hout.
  split; [exact Hq|]. split.
  - intros i Hi. rewrite <- Z.shiftr_div_pow2 by lia.
    apply Z.shiftr_spec. exact Hi.
  - intros seed Hseed. rewrite Hseed. split; reflexivity.
Qed.

(** The seed 01 00 .. 00 has the state 1, and the first output is 0. *)
Lemma LCG_next_spec_witness :
  m_state (LCG_new seed_one) = 1
  /\ fst (LCG_next (LCG_new seed_one)) = 0.
Proof.
  split; [reflexivity|].
  apply (LCG_next_spec 0). reflexivity.
Defined.

(** ** The challenge-building loop *)

Section ChallengeLoop.

Context {host : Host}.

Lemma txSize_range tx : 0 <= txSize tx <= SIZE_MAX.
Proof. apply to_size_t_range. Qed.

Lemma total_size_nonneg txs : 0 <= total_size txs.
Proof.
  induction txs as [|tx txs IH]; simpl; [lia|].
  pose proof (txSize_range tx). lia.
Qed.

Lemma total_size_app txs1 txs2 :
  total_size (txs1 ++ txs2) = total_size txs1 + total_size txs2.
Proof. induction txs1 as [|tx txs1 IH]; simpl; lia. Qed.

Lemma virtual_tx_synthetic prng rng tx prng' rng' :
  virtual_tx prng rng = (tx, prng', rng') -> synthetic tx.
Proof. intros E. exists prng, rng. now rewrite E. Qed.

Lemma candidates_length k prng rng : length (candidates k prng rng) = k.
Proof.
  revert prng rng. induction k as [|k IH]; intros prng rng; simpl; [done|].
  destruct (virtual_tx prng rng) as [[tx prng'] rng']. simpl. now rewrite IH.
Qed.

Lemma candidates_synthetic k prng rng :
  Forall synthetic (candidates k prng rng).
Proof.
  revert prng rng. induction k as [|k IH]; intros prng rng; simpl.
  - constructor.
  - destruct (virtual_tx prng rng) as [[tx prng'] rng'] eqn:E.
    constructor; [eapply virtual_tx_synthetic, E | apply IH].
Qed.

(** When every synthetic transaction takes at least one byte, [k] of them
    take at least [k] bytes. *)
Lemma total_size_candidates_lower k prng rng :
  (forall tx, synthetic tx -> 0 < txSize tx) ->
  Z.of_nat k <= total_size (candidates k prng rng).
Proof.
  intros Hpos. revert prng rng.
  induction k as [|k IH]; intros prng rng; simpl; [lia|].
  destruct (virtual_tx prng rng) as [[tx prng'] rng'] eqn:E.
  simpl. specialize (IH prng' rng').
  pose proof (Hpos tx (virtual_tx_synthetic _ _ _ _ _ E)). lia.
Qed.

Lemma GenerateVirtualChallenge_loop_step fuel maxSize prng txs cur rng :
  GenerateVirtualChallenge_loop (S fuel) maxSize prng txs cur rng
  = let '(tx, prng', rng') := virtual_tx prng rng in
    if to_size_t (cur + txSize tx) >? maxSize
    then Done (txs, rng')
    else GenerateVirtualChallenge_loop fuel maxSize prng'
           (txs ++ [tx]) (to_size_t (cur + txSize tx)) rng'.
Proof. reflexivity. Qed.

(** More fuel does not change the result of a loop that returned. *)
Lemma GenerateVirtualChallenge_loop_fuel fuel fuel' maxSize prng txs cur rng r :
  (fuel <= fuel')%nat ->
  GenerateVirtualChallenge_loop fuel maxSize prng txs cur rng = Done r ->
  GenerateVirtualChallenge_loop fuel' maxSize prng txs cur rng = Done r.
Proof.
  revert fuel' prng txs cur rng.
  induction fuel as [|fuel IH]; intros fuel' prng txs cur rng Hle.
  - discriminate.
  - destruct fuel' as [|fuel']; [lia|].
    rewrite !GenerateVirtualChallenge_loop_step.
    destruct (virtual_tx prng rng) as [[tx prng'] rng'].
    destruct (_ >? maxSize); [done|].
    apply IH. lia.
Qed.

(** The loop, when the additions do not wrap: whatever it returns is the
    accumulator followed by the first [k] candidates, which fit the budget,
    while the candidate after them does not; [k + 1] passes were enough. *)
Lemma GenerateVirtualChallenge_loop_done B fuel maxSize prng txs cur rng res rng' :
  maxSize + B <= SIZE_MAX ->
  (forall tx, synthetic tx -> txSize tx <= B) ->
  0 <= cur <= maxSize ->
  GenerateVirtualChallenge_loop fuel maxSize prng txs cur rng = Done (res, rng') ->
  exists k : nat,
    (k < fuel)%nat
    /\ res = txs ++ candidates k prng rng
    /\ cur + total_size (candidates k prng rng) <= maxSize
    /\ maxSize < cur + total_size (candidates k prng rng)
                 + txSize (candidate k prng rng)
    /\ GenerateVirtualChallenge_loop (S k) maxSize prng txs cur rng
       = Done (res, rng').
Proof.
  intros Hvalid Hup. revert prng txs cur rng.
  induction fuel as [|fuel IH]; intros prng txs cur rng Hcur.
  - discriminate.
  - rewrite GenerateVirtualChallenge_loop_step.
    destruct (virtual_tx prng rng) as [[tx prng1] rng1] eqn:E.
    pose proof (Hup tx (virtual_tx_synthetic _ _ _ _ _ E)) as Hsz.
    pose proof (txSize_range tx) as Hrg.
    rewrite (to_size_t_small (cur + txSize tx)) by lia.
    destruct (cur + txSize tx >? maxSize) eqn:Hcmp.
    + intros [= <- <-]. exists 0%nat.
      rewrite GenerateVirtualChallenge_loop_step.
      cbn [candidates candidate total_size]. rewrite E, app_nil_r.
      rewrite (to_size_t_small (cur + txSize tx)) by lia. rewrite Hcmp.
      apply Z.gtb_lt in Hcmp. repeat split; lia.
    + intros Hrun.
      assert (Hle : cur + txSize tx <= maxSize).
      { rewrite Z.gtb_ltb in Hcmp. apply Z.ltb_ge in Hcmp. exact Hcmp. }
      assert (Hcur' : 0 <= cur + txSize tx <= maxSize) by lia.
      destruct (IH prng1 (txs ++ [tx]) (cur + txSize tx) rng1 Hcur' Hrun)
        as (k & Hk & Hres & Hfit & Hrej & Hmin).
      exists (S k).
      rewrite (GenerateVirtualChallenge_loop_step (S k)).
      cbn [candidates candidate total_size]. rewrite E.
      rewrite (to_size_t_small (cur + txSize tx)) by lia. rewrite Hcmp.
      cbn [total_size].
      repeat split; [lia| |lia|lia|exact Hmin].
      rewrite Hres, <- app_assoc. reflexivity.
Qed.

(** The loop returns as soon as the fuel exceeds the bytes left in the
    budget, when no addition wraps and every candidate takes a byte. *)
Lemma GenerateVirtualChallenge_loop_returns B fuel maxSize prng txs cur rng :
  maxSize + B <= SIZE_MAX ->
  (forall tx, synthetic tx -> 0 < txSize tx <= B) ->
  0 <= cur <= maxSize ->
  (Z.to_nat (maxSize - cur) < fuel)%nat ->
  exists r, GenerateVirtualChallenge_loop fuel maxSize prng txs cur rng = Done r.
Proof.
  intros Hvalid Hsz. revert prng txs cur rng.
  induction fuel as [|fuel IH]; intros prng txs cur rng Hcur Hfuel; simpl.
  - lia.
  - destruct (virtual_tx prng rng) as [[tx prng1] rng1] eqn:E.
    fold (txSize tx).
    pose proof (Hsz tx (virtual_tx_synthetic _ _ _ _ _ E)) as Htx.
    rewrite (to_size_t_small (cur + txSize tx)) by lia.
    destruct (cur + txSize tx >? maxSize) eqn:Hcmp.
    + eauto.
    + rewrite Z.gtb_ltb in Hcmp. apply Z.ltb_ge in Hcmp.
      apply IH; lia.
Qed.

(** With the largest [size_t] as the budget the test of line 61 never
    holds, whatever the transactions are. *)
Lemma GenerateVirtualChallenge_loop_SIZE_MAX fuel prng txs cur rng :
  GenerateVirtualChallenge_loop fuel SIZE_MAX prng txs cur rng = OutOfFuel.
Proof.
  revert prng txs cur rng.
  induction fuel as [|fuel IH]; intros prng txs cur rng; [done|].
  rewrite GenerateVirtualChallenge_loop_step.
  destruct (virtual_tx prng rng) as [[tx prng1] rng1].
  pose proof (to_size_t_range (cur + txSize tx)) as Hr.
  destruct (_ >? SIZE_MAX) eqn:Hcmp.
  - apply Z.gtb_lt in Hcmp. lia.
  - apply IH.
Qed.

Lemma GenerateVirtualChallenge_loop_in_bounds fuel maxSize prng txs cur rng :
  GenerateVirtualChallenge_loop fuel maxSize prng txs cur rng <> OutOfBounds.
Proof.
  revert prng txs cur rng.
  induction fuel as [|fuel IH]; intros prng txs cur rng; [done|].
  rewrite GenerateVirtualChallenge_loop_step.
  destruct (virtual_tx prng rng) as [[tx prng1] rng1].
  destruct (_ >? maxSize); [done | apply IH].
Qed.

Lemma GenerateVirtualChallenge_loop_prefix fuel maxSize prng txs cur rng res rng' :
  GenerateVirtualChallenge_loop fuel maxSize prng txs cur rng = Done (res, rng') ->
  exists k : nat, res = txs ++ candidates k prng rng.
Proof.
  revert prng txs cur rng.
  induction fuel as [|fuel IH]; intros prng txs cur rng; [done|].
  rewrite GenerateVirtualChallenge_loop_step.
  destruct (virtual_tx prng rng) as [[tx prng1] rng1] eqn:E.
  destruct (_ >? maxSize).
  - intros [= <- <-]. exists 0%nat. cbn [candidates]. now rewrite app_nil_r.
  - intros Hrun. destruct (IH _ _ _ _ Hrun) as [k ->].
    exists (S k). cbn [candidates]. rewrite E, <- app_assoc. reflexivity.
Qed.

Lemma GenerateVirtualChallenge_too_small
    (fuel : nat) (seed : uint256) (maxSize : Z) (rng : Rand) :
  (forall tx, synthetic tx -> maxSize < txSize tx) ->
  GenerateVirtualChallenge (S fuel) seed maxSize rng
  = Done ([], snd (InsecureRand256 rng)).
Proof.
  intros Hsmall. unfold GenerateVirtualChallenge.
  rewrite GenerateVirtualChallenge_loop_step.
  destruct (virtual_tx (LCG_new seed) rng) as [[tx prng1] rng1] eqn:E.
  pose proof (Hsmall tx (virtual_tx_synthetic _ _ _ _ _ E)) as Htx.
  pose proof (txSize_range tx) as Hrg.
  rewrite (to_size_t_small (0 + txSize tx)) by lia.
  assert (Hcmp : (0 + txSize tx >? maxSize) = true) by (apply Z.gtb_lt; lia).
  rewrite Hcmp. f_equal. f_equal.
  unfold virtual_tx in E.
  destruct (InsecureRand256 rng) as [h rng0].
  destruct (LCG_next (LCG_new seed)) as [r0 p0].
  destruct (LCG_next p0) as [r1 p1].
  destruct (LCG_next p1) as [r2 p2].
  destruct (draw_data 32 p2) as [data p3].
  now inversion E.
Qed.

Lemma ComputeProof_in_bounds fuel prevBlockHash root params rng :
  ComputeProof fuel prevBlockHash root params rng <> OutOfBounds.
Proof.
  unfold ComputeProof, GenerateVirtualChallenge.
  pose proof (GenerateVirtualChallenge_loop_in_bounds fuel
                (to_size_t (nTCCPChallengeSize params))
                (LCG_new (CalculateSeed prevBlockHash root)) [] 0 rng) as Hb.
  destruct (GenerateVirtualChallenge_loop _ _ _ _ _ _) as [[v rng']| |];
    [|done|done].
  cbn [mbind outcome_bind]. now destruct v.
Qed.

Lemma ComputeProof_too_small fuel prevBlockHash root params rng :
  (forall tx, synthetic tx ->
     to_size_t (nTCCPChallengeSize params) < txSize tx) ->
  ComputeProof (S fuel) prevBlockHash root params rng
  = Done (uint256_zero, snd (InsecureRand256 rng)).
Proof.
  intros Hsmall. unfold ComputeProof.
  now rewrite GenerateVirtualChallenge_too_small.
Qed.

End ChallengeLoop.

(** ** Sizes on the reference host *)

Module ReferenceFacts.

Import Reference.

Lemma magnitude_bytes_length k v : (length (magnitude_bytes k v) <= k)%nat.
Proof.
  revert v. induction k as [|k IH]; intros v; simpl; [lia|].
  destruct (v =? 0); simpl; [lia|]. specialize (IH (Z.shiftr v 8)). lia.
Qed.

Lemma removelast_length {A : Type} (l : list A) :
  (length (removelast l) <= length l)%nat.
Proof. induction l as [|x [|y l] IH]; cbn [removelast length] in *; lia. Qed.

Lemma scriptnum_serialize_length v :
  (length (scriptnum_serialize v) <= 9)%nat.
Proof.
  unfold scriptnum_serialize.
  pose proof (magnitude_bytes_length 8 (Z.abs v)) as Hm.
  pose proof (removelast_length (magnitude_bytes 8 (Z.abs v))) as Hr.
  set (bs := magnitude_bytes 8 (Z.abs v)) in *. clearbody bs.
  destruct (rev bs) as [|top ?]; [cbn [length]; lia|].
  destruct (Z.testbit (byte_to_Z top) 7).
  - rewrite length_app. cbn [length]. lia.
  - destruct (v <? 0); [|lia].
    rewrite length_app. cbn [length]. lia.
Qed.

Lemma script_push_int64_length s v :
  (length s + 1 <= length (script_push_int64 s v) <= length s + 10)%nat.
Proof.
  unfold script_push_int64.
  destruct ((v =? -1) || ((1 <=? v) && (v <=? 16)));
    [rewrite length_app; cbn [length]; lia|].
  destruct (v =? 0); [rewrite length_app; cbn [length]; lia|].
  unfold script_push_data.
  pose proof (scriptnum_serialize_length v) as Hn.
  set (d := scriptnum_serialize v) in *. clearbody d.
  destruct (Z.of_nat (length d) <? 76) eqn:Hlt.
  - rewrite !length_app. cbn [length]. lia.
  - apply Z.ltb_ge in Hlt. lia.
Qed.

Lemma draw_data_length {host : Host} k prng :
  length (draw_data k prng).1 = k.
Proof.
  revert prng. induction k as [|k IH]; intros prng; cbn [draw_data]; [done|].
  destruct (LCG_next prng) as [r prng1].
  specialize (IH prng1). destruct (draw_data k prng1) as [rest prng2].
  cbn [fst length] in *. lia.
Qed.

(** On a reference host a synthetic transaction takes 96 to 114 bytes. *)
Lemma synthetic_size (R : Type) (draw : R -> uint256 * R) (tx : CTransaction) :
  synthetic (host := make R draw) tx ->
  96 <= txSize (host := make R draw) tx <= 114.
Proof.
  intros (prng & rng & <-).
  unfold virtual_tx.
  destruct (InsecureRand256 rng) as [h rng1].
  destruct (LCG_next prng) as [r0 prng0].
  destruct (LCG_next prng0) as [r1 prng1].
  destruct (LCG_next prng1) as [r2 prng2].
  pose proof (draw_data_length (host := make R draw) 32 prng2) as Hd.
  destruct (draw_data 32 prng2) as [data prng3].
  cbn [fst snd] in *.
  unfold txSize, GetTotalSize, make, serialized_size.
  cbn [vin vout sum_sizes txin_size txout_size scriptSig scriptPubKey length
       push_int64 push_data push_opcode].
  pose proof (script_push_int64_length [] r1) as H1.
  pose proof (script_push_int64_length (script_push_int64 [] r1) r2) as H2.
  cbn [length] in H1.
  set (sig := script_push_int64 (script_push_int64 [] r1) r2) in *.
  assert (Hspk : length (script_push_data (script_push_opcode [] OP_RETURN) data)
                 = 34%nat).
  { unfold script_push_data, script_push_opcode. rewrite Hd.
    change (Z.of_nat 32 <? 76) with true. cbv iota.
    rewrite !length_app, Hd. reflexivity. }
  unfold txin_size, txout_size. cbn [scriptSig scriptPubKey].
  rewrite Hspk.
  assert (Hc : compact_size_len (length sig) = 1).
  { unfold compact_size_len.
    destruct (Z.of_nat (length sig) <? 253) eqn:Hlt; [done|].
    apply Z.ltb_ge in Hlt. lia. }
  rewrite Hc. change (compact_size_len 1) with 1.
  change (compact_size_len 34) with 1.
  rewrite to_size_t_small; unfold SIZE_MAX; lia.
Qed.

Lemma counting_size (tx : CTransaction) :
  synthetic (host := counting) tx -> 96 <= txSize (host := counting) tx <= 114.
Proof. apply synthetic_size. Qed.

Lemma pinned_size (tx : CTransaction) :
  synthetic (host := pinned) tx -> 96 <= txSize (host := pinned) tx <= 114.
Proof. apply synthetic_size. Qed.

End ReferenceFacts.

(** ** The size budget *)

(** C4. For a budget [maxSize] in the range where the additions of line 61
    are exact, and transactions of 1 to [B] bytes, the builder returns the
    first [k] transactions it generated, for some [k]: their sizes sum to at
    most [maxSize], adding the size of the next one, the rejected one,
    exceeds [maxSize], and that one is no part of the result. *)
Theorem GenerateVirtualChallenge_budget {host : Host}
    (B : Z) (seed : uint256) (maxSize : Z) (rng : Rand) :
  0 <= maxSize ->
  maxSize + B <= SIZE_MAX ->
  (forall tx, synthetic tx -> 0 < txSize tx <= B) ->
  exists (k : nat) (rng' : Rand),
    GenerateVirtualChallenge (S (Z.to_nat maxSize)) seed maxSize rng
    = Done (candidates k (LCG_new seed) rng, rng')
    /\ total_size (candidates k (LCG_new seed) rng) <= maxSize
    /\ maxSize < total_size (candidates k (LCG_new seed) rng)
                 + txSize (candidate k (LCG_new seed) rng).
Proof.
  intros Hmax Hvalid Hsz.
  assert (Hcur : 0 <= 0 <= maxSize) by lia.
  assert (Hfuel : (Z.to_nat (maxSize - 0) < S (Z.to_nat maxSize))%nat)
    by (rewrite Z.sub_0_r; lia).
  destruct (GenerateVirtualChallenge_loop_returns B (S (Z.to_nat maxSize))
              maxSize (LCG_new seed) [] 0 rng Hvalid Hsz Hcur Hfuel)
    as [[res rng'] Hrun].
  destruct (GenerateVirtualChallenge_loop_done B _ _ _ _ _ _ _ _ Hvalid
              (fun tx H => proj2 (Hsz tx H)) Hcur Hrun)
    as (k & _ & Hres & Hfit & Hrej & _).
  exists k, rng'. unfold GenerateVirtualChallenge.
  rewrite Hrun, Hres. simpl app. repeat split; lia.
Qed.

(** On the reference host, with the budget of 500 bytes of the
    specification's example. *)
Lemma GenerateVirtualChallenge_budget_witness :
  (forall tx, synthetic (host := Reference.counting) tx ->
              0 < txSize (host := Reference.counting) tx <= 114)
  /\ exists (k : nat) (rng' : nat),
       GenerateVirtualChallenge (host := Reference.counting)
         (S (Z.to_nat 500)) seed_one 500 0%nat
       = Done (candidates (host := Reference.counting) k (LCG_new seed_one)
                 0%nat, rng')
       /\ total_size (host := Reference.counting)
            (candidates (host := Reference.counting) k (LCG_new seed_one)
               0%nat) <= 500
       /\ 500 < total_size (host := Reference.counting)
                  (candidates (host := Reference.counting) k
                     (LCG_new seed_one) 0%nat)
                + txSize (host := Reference.counting)
                    (candidate (host := Reference.counting) k
                       (LCG_new seed_one) 0%nat).
Proof.
  assert (Hsz : forall tx, synthetic (host := Reference.counting) tx ->
                  0 < txSize (host := Reference.counting) tx <= 114).
  { intros tx Htx. pose proof (ReferenceFacts.counting_size tx Htx). lia. }
  split; [exact Hsz|].
  apply (GenerateVirtualChallenge_budget (host := Reference.counting)
           114 seed_one 500 0%nat); [lia | unfold SIZE_MAX; lia | exact Hsz].
Defined.

(** ** Termination of the loop *)

(** C9, as amended. For a budget [maxSize] in the range where the additions
    of line 61 are exact ([maxSize + B] is a [size_t], [B] bounding the
    sizes), and transactions of at least one byte, the loop stops: it
    returns a challenge set of at most [maxSize] transactions after one
    pass more than it accepted, whatever fuel beyond that it is given. *)
Theorem GenerateVirtualChallenge_terminates {host : Host}
    (B : Z) (seed : uint256) (maxSize : Z) (rng : Rand) :
  0 <= maxSize ->
  maxSize + B <= SIZE_MAX ->
  (forall tx, synthetic tx -> 0 < txSize tx <= B) ->
  exists (txs : list CTransaction) (rng' : Rand),
    Z.of_nat (length txs) <= maxSize
    /\ forall fuel : nat,
         (length txs < fuel)%nat ->
         GenerateVirtualChallenge fuel seed maxSize rng = Done (txs, rng').
Proof.
  intros Hmax Hvalid Hsz.
  assert (Hcur : 0 <= 0 <= maxSize) by lia.
  assert (Hfuel : (Z.to_nat (maxSize - 0) < S (Z.to_nat maxSize))%nat)
    by (rewrite Z.sub_0_r; lia).
  destruct (GenerateVirtualChallenge_loop_returns B (S (Z.to_nat maxSize))
              maxSize (LCG_new seed) [] 0 rng Hvalid Hsz Hcur Hfuel)
    as [[res rng'] Hrun].
  destruct (GenerateVirtualChallenge_loop_done B _ _ _ _ _ _ _ _ Hvalid
              (fun tx H => proj2 (Hsz tx H)) Hcur Hrun)
    as (k & _ & Hres & Hfit & _ & Hmin).
  simpl app in Hres. subst res.
  exists (candidates k (LCG_new seed) rng), rng'.
  rewrite candidates_length. split.
  - pose proof (total_size_candidates_lower k (LCG_new seed) rng
                  (fun tx H => proj1 (Hsz tx H))). lia.
  - intros fuel Hlt. unfold GenerateVirtualChallenge.
    eapply GenerateVirtualChallenge_loop_fuel; [|exact Hmin]. lia.
Qed.

(** On the reference host, with a budget of 500 bytes. *)
Lemma GenerateVirtualChallenge_terminates_witness :
  (forall tx, synthetic (host := Reference.counting) tx ->
              0 < txSize (host := Reference.counting) tx <= 114)
  /\ exists (txs : list CTransaction) (rng' : nat),
       Z.of_nat (length txs) <= 500
       /\ forall fuel : nat,
            (length txs < fuel)%nat ->
            GenerateVirtualChallenge (host := Reference.counting)
              fuel seed_one 500 0%nat = Done (txs, rng').
Proof.
  assert (Hsz : forall tx, synthetic (host := Reference.counting) tx ->
                  0 < txSize (host := Reference.counting) tx <= 114).
  { intros tx Htx. pose proof (ReferenceFacts.counting_size tx Htx). lia. }
  split; [exact Hsz|].
  apply (GenerateVirtualChallenge_terminates (host := Reference.counting)
           114 seed_one 500 0%nat); [lia | unfold SIZE_MAX; lia | exact Hsz].
Defined.

(** C9 as stated, for every finite [maxSize], does not hold. With
    [maxSize = SIZE_MAX], a finite budget, [currentSize + txSize > maxSize]
    is false for every pair of [size_t] values: on the reference host every
    synthetic transaction takes at least one byte and still the loop never
    returns, whatever the fuel. *)
Lemma GenerateVirtualChallenge_SIZE_MAX_diverges :
  (forall tx, synthetic (host := Reference.counting) tx ->
              0 < txSize (host := Reference.counting) tx)
  /\ (forall fuel : nat,
        GenerateVirtualChallenge (host := Reference.counting)
          fuel seed_one SIZE_MAX 0%nat = OutOfFuel).
Proof.
  split.
  - intros tx Htx. pose proof (ReferenceFacts.counting_size tx Htx). lia.
  - intros fuel. apply GenerateVirtualChallenge_loop_SIZE_MAX.
Qed.

(** ** The empty challenge *)

(** C6. When the generated challenge set is empty, [ComputeProof] returns
    the all-zero value, and so it does with any other Merkle-root service in
    the host: the service is not consulted.  In particular this is the
    outcome, after a single pass of the loop, whenever the size limit is
    smaller than every synthetic transaction. *)
Theorem ComputeProof_empty_challenge {host : Host} (fuel : nat)
    (prevBlockHash provisionalMerkleRoot : uint256) (params : Params)
    (rng : Rand) :
  (forall rng' : Rand,
     GenerateVirtualChallenge fuel
       (CalculateSeed prevBlockHash provisionalMerkleRoot)
       (to_size_t (nTCCPChallengeSize params)) rng = Done ([], rng') ->
     forall merkle : list uint256 -> uint256,
       ComputeProof (host := with_merkle host merkle) fuel
         prevBlockHash provisionalMerkleRoot params rng
       = Done (uint256_zero, rng')
       /\ ComputeProof fuel prevBlockHash provisionalMerkleRoot params rng
          = Done (uint256_zero, rng'))
  /\ ((forall tx, synthetic tx ->
         to_size_t (nTCCPChallengeSize params) < txSize tx) ->
      forall merkle : list uint256 -> uint256,
        ComputeProof (host := with_merkle host merkle) (S fuel)
          prevBlockHash provisionalMerkleRoot params rng
        = Done (uint256_zero, snd (InsecureRand256 rng))
        /\ ComputeProof (S fuel) prevBlockHash provisionalMerkleRoot params rng
           = Done (uint256_zero, snd (InsecureRand256 rng))).
Proof.
  assert (Hempty : forall (f : nat) (rng' : Rand),
            GenerateVirtualChallenge f
              (CalculateSeed prevBlockHash provisionalMerkleRoot)
              (to_size_t (nTCCPChallengeSize params)) rng = Done ([], rng') ->
            forall merkle : list uint256 -> uint256,
              ComputeProof (host := with_merkle host merkle) f
                prevBlockHash provisionalMerkleRoot params rng
              = Done (uint256_zero, rng')
              /\ ComputeProof f prevBlockHash provisionalMerkleRoot params rng
                 = Done (uint256_zero, rng')).
  { intros f rng' Hgen merkle. unfold ComputeProof. split.
    - change (GenerateVirtualChallenge (host := with_merkle host merkle) f
                (CalculateSeed (host := with_merkle host merkle)
                   prevBlockHash provisionalMerkleRoot))
        with (GenerateVirtualChallenge f
                (CalculateSeed prevBlockHash provisionalMerkleRoot)).
      change (@Rand (with_merkle host merkle)) with (@Rand host) in *.
      rewrite Hgen. reflexivity.
    - rewrite Hgen. reflexivity. }
  split.
  - apply Hempty.
  - intros Hsmall merkle. apply Hempty.
    now apply GenerateVirtualChallenge_too_small.
Qed.

(** On the reference host a limit of 50 bytes is below every synthetic
    transaction, and the proof is the zero value. *)
Lemma ComputeProof_empty_challenge_witness :
  (forall tx, synthetic (host := Reference.counting) tx ->
     to_size_t (nTCCPChallengeSize {| nTCCPChallengeSize := 50 |})
     < txSize (host := Reference.counting) tx)
  /\ ComputeProof (host := Reference.counting) 1 seed_one seed_one
       {| nTCCPChallengeSize := 50 |} 0%nat
     = Done (uint256_zero, 1%nat).
Proof.
  assert (Hsmall : forall tx, synthetic (host := Reference.counting) tx ->
            to_size_t (nTCCPChallengeSize {| nTCCPChallengeSize := 50 |})
            < txSize (host := Reference.counting) tx).
  { intros tx Htx. pose proof (ReferenceFacts.counting_size tx Htx).
    change (to_size_t (nTCCPChallengeSize {| nTCCPChallengeSize := 50 |}))
      with 50. lia. }
  split; [exact Hsmall|].
  exact (proj2 (proj2 (ComputeProof_empty_challenge
                         (host := Reference.counting) 0 seed_one seed_one
                         {| nTCCPChallengeSize := 50 |} 0%nat)
                  Hsmall (@ComputeMerkleRoot Reference.counting))).
Defined.

(** ** The genesis exemption *)

(** C7. Without a previous-block handle [VerifyBlock] returns true at once,
    whatever the block, the parameters, the fuel and the random context,
    which it leaves as it found it. *)
Theorem VerifyBlock_genesis {host : Host} (fuel : nat) (block : CBlock)
    (params : Params) (rng : Rand) :
  VerifyBlock fuel block None params rng = Done (true, rng).
Proof. reflexivity. Qed.

(** ** The commitment layout *)

Section Commitment.

Context {host : Host}.

Lemma vector_range_ok {A : Type} (v : list A) (first last : nat) :
  (first <= last <= length v)%nat ->
  vector_range v first last = Done (take (last - first) (drop first v)).
Proof. intros H. unfold vector_range. now rewrite bool_decide_eq_true_2. Qed.

Lemma uint256_of_vector_ok (v : list byte) :
  length v = 32%nat ->
  exists p, uint256_of_vector v = Done p /\ u256_bytes p = v.
Proof.
  intros H. unfold uint256_of_vector.
  destruct (decide (length v = 32%nat)) as [Hl|Hl]; [|done].
  eexists. split; reflexivity.
Qed.

Lemma commitment_data_layout script :
  commitment_layout script ->
  commitment_data script = Done (Some (drop 2 script)).
Proof.
  intros (Hlen & H0 & H1 & Hmagic). unfold commitment_data.
  rewrite bool_decide_eq_true_2 by exact Hlen.
  unfold vector_at. rewrite H0, H1. cbn [mbind outcome_bind].
  rewrite !bool_decide_eq_true_2 by reflexivity.
  rewrite vector_range_ok by lia. cbn [mbind outcome_bind].
  rewrite take_ge by (rewrite length_drop; lia).
  rewrite vector_range_ok by (rewrite length_drop; lia).
  cbn [mbind outcome_bind]. rewrite drop_0.
  change (4 - 0)%nat with 4%nat.
  now rewrite bool_decide_eq_true_2 by exact Hmagic.
Qed.

Lemma commitment_data_not_layout script :
  ~ commitment_layout script -> commitment_data script = Done None.
Proof.
  intros Hno. unfold commitment_data.
  case_bool_decide as Hlen; [|done].
  unfold vector_at.
  destruct (script !! 0%nat) as [b0|] eqn:H0.
  2:{ apply lookup_ge_None in H0. lia. }
  cbn [mbind outcome_bind]. case_bool_decide as Hb0; [subst b0|done].
  destruct (script !! 1%nat) as [b1|] eqn:H1.
  2:{ apply lookup_ge_None in H1. lia. }
  cbn [mbind outcome_bind]. case_bool_decide as Hb1; [subst b1|done].
  rewrite vector_range_ok by lia. cbn [mbind outcome_bind].
  rewrite take_ge by (rewrite length_drop; lia).
  rewrite vector_range_ok by (rewrite length_drop; lia).
  cbn [mbind outcome_bind]. rewrite drop_0.
  change (4 - 0)%nat with 4%nat.
  case_bool_decide as Hmagic; [|done].
  exfalso. apply Hno. repeat split; assumption.
Qed.

Lemma commitment_proof_ok script :
  length script = 38%nat ->
  exists p, commitment_proof (drop 2 script) = Done p
            /\ u256_bytes p = take 32 (drop 6 script).
Proof.
  intros Hlen. unfold commitment_proof.
  rewrite vector_range_ok by (rewrite length_drop; lia).
  cbn [mbind outcome_bind].
  rewrite length_drop, Hlen. change (38 - 2 - 4)%nat with 32%nat.
  rewrite drop_drop. change (2 + 4)%nat with 6%nat.
  apply uint256_of_vector_ok.
  rewrite length_take, length_drop. lia.
Qed.

Lemma commitment_data_Some script data :
  commitment_data script = Done (Some data) ->
  commitment_layout script /\ data = drop 2 script.
Proof.
  intros Hd. destruct (decide (commitment_layout script)) as [Hy|Hn].
  - rewrite (commitment_data_layout _ Hy) in Hd. split; [exact Hy|].
    now inversion Hd.
  - now rewrite (commitment_data_not_layout _ Hn) in Hd.
Qed.

(** The test of lines 94 to 96 yields the data of a script exactly when the
    script is 38 bytes long, starts with [OP_RETURN] and 0x24, and carries
    the magic tag in bytes 2 to 5; line 98 then decodes bytes 6 to 37. *)
Lemma commitment_data_iff_layout (script : CScript) :
  ((exists data, commitment_data script = Done (Some data))
   <-> commitment_layout script)
  /\ (commitment_data script = Done None <-> ~ commitment_layout script)
  /\ (forall data, commitment_data script = Done (Some data) ->
        exists p, commitment_proof data = Done p
                  /\ u256_bytes p = take 32 (drop 6 script)
                  /\ u256_bytes p = drop 6 script).
Proof.
  destruct (decide (commitment_layout script)) as [Hyes|Hno].
  - pose proof (commitment_data_layout script Hyes) as Hd.
    destruct (commitment_proof_ok script (proj1 Hyes)) as (p & Hp & Hbytes).
    rewrite Hd. split; [|split].
    + split; [intros _; exact Hyes | intros _; eauto].
    + split; [discriminate | intros Hno; contradiction].
    + intros data [= <-]. exists p.
      split; [exact Hp|]. split; [exact Hbytes|].
      rewrite Hbytes. apply take_ge. rewrite length_drop.
      destruct Hyes as [-> _]. lia.
  - pose proof (commitment_data_not_layout script Hno) as Hd.
    rewrite Hd. split; [|split].
    + split; [intros [data [=]] | intros Hyes; contradiction].
    + split; [intros _; exact Hno | reflexivity].
    + discriminate.
Qed.

Lemma encode_commitment_layout (proof : uint256) :
  length TCCP_MAGIC_BYTES = 4%nat ->
  commitment_layout (encode_commitment proof).
Proof.
  intros Hm. unfold commitment_layout, encode_commitment.
  split; [|split; [reflexivity|split; [reflexivity|]]].
  - cbn [app length]. rewrite length_app, Hm, u256_size. reflexivity.
  - change (drop 2 ([OP_RETURN; x24] ++ TCCP_MAGIC_BYTES ++ u256_bytes proof))
      with (TCCP_MAGIC_BYTES ++ u256_bytes proof).
    rewrite take_app_length'; [reflexivity|now rewrite Hm].
Qed.

Lemma encode_commitment_bytes (proof : uint256) :
  length TCCP_MAGIC_BYTES = 4%nat ->
  take 32 (drop 6 (encode_commitment proof)) = u256_bytes proof.
Proof.
  intros Hm. unfold encode_commitment.
  change (drop 6 ([OP_RETURN; x24] ++ TCCP_MAGIC_BYTES ++ u256_bytes proof))
    with (drop 4 (TCCP_MAGIC_BYTES ++ u256_bytes proof)).
  rewrite drop_app_length'; [|now rewrite Hm].
  apply take_ge. rewrite u256_size. lia.
Qed.

End Commitment.

(** ** The scan of the coinbase outputs *)

Section Scan.

Context {host : Host}.

Lemma count_commitments_cons_yes out outs :
  is_commitment out ->
  count_commitments (out :: outs) = S (count_commitments outs).
Proof. intros H. unfold count_commitments. now rewrite filter_cons_True. Qed.

Lemma count_commitments_cons_no out outs :
  ~ is_commitment out ->
  count_commitments (out :: outs) = count_commitments outs.
Proof. intros H. unfold count_commitments. now rewrite filter_cons_False. Qed.

Lemma count_commitments_app outs1 outs2 :
  count_commitments (outs1 ++ outs2)
  = (count_commitments outs1 + count_commitments outs2)%nat.
Proof. unfold count_commitments. now rewrite list.filter_app, length_app. Qed.

Lemma count_commitments_zero outs :
  count_commitments outs = 0%nat <-> Forall (fun out => ~ is_commitment out) outs.
Proof.
  induction outs as [|out outs IH].
  - split; [constructor|reflexivity].
  - destruct (decide (is_commitment out)) as [Hy|Hn].
    + rewrite count_commitments_cons_yes by exact Hy. split; [discriminate|].
      intros HF. inversion HF; contradiction.
    + rewrite count_commitments_cons_no by exact Hn. rewrite IH. split.
      * intros HF. now constructor.
      * intros HF. now inversion HF.
Qed.

(** A coinbase with a commitment splits at its first one. *)
Lemma count_commitments_first outs :
  count_commitments outs <> 0%nat ->
  exists pre c post,
    outs = pre ++ c :: post
    /\ count_commitments pre = 0%nat
    /\ is_commitment c
    /\ count_commitments outs = S (count_commitments post).
Proof.
  induction outs as [|out outs IH]; [done|].
  destruct (decide (is_commitment out)) as [Hy|Hn].
  - intros _. exists [], out, outs.
    split; [reflexivity|]. split; [reflexivity|]. split; [exact Hy|].
    now apply count_commitments_cons_yes.
  - rewrite count_commitments_cons_no by exact Hn. intros Hc.
    destruct (IH Hc) as (pre & c & post & -> & Hpre & Hcm & Hcount).
    exists (out :: pre), c, post.
    split; [reflexivity|]. split; [|split; [exact Hcm|exact Hcount]].
    now rewrite count_commitments_cons_no.
Qed.

Lemma count_commitments_replicate_plain (n : nat) :
  count_commitments (replicate n plain_output) = 0%nat.
Proof.
  apply count_commitments_zero, Forall_replicate.
  intros [Hlen _]. discriminate Hlen.
Qed.

Lemma scan_outputs_cons_no out outs i p idx :
  ~ is_commitment out ->
  scan_outputs (out :: outs) i p idx = scan_outputs outs (S i) p idx.
Proof.
  intros Hn. cbn [scan_outputs].
  now rewrite (commitment_data_not_layout _ Hn).
Qed.

Lemma scan_outputs_cons_yes out outs i p idx :
  is_commitment out ->
  exists p',
    u256_bytes p' = take 32 (drop 6 (scriptPubKey out))
    /\ scan_outputs (out :: outs) i p idx
       = if bool_decide (idx <> -1) then Done ScanReject
         else scan_outputs outs (S i) p' (to_int (Z.of_nat i)).
Proof.
  intros Hy. cbn [scan_outputs].
  rewrite (commitment_data_layout _ Hy). cbn [mbind outcome_bind].
  destruct (commitment_proof_ok _ (proj1 Hy)) as (p' & Hp' & Hbytes).
  exists p'. split; [exact Hbytes|]. rewrite Hp'. reflexivity.
Qed.

(** Outputs that are no commitments are passed over. *)
Lemma scan_outputs_skip pre outs i p idx :
  count_commitments pre = 0%nat ->
  scan_outputs (pre ++ outs) i p idx
  = scan_outputs outs (i + length pre) p idx.
Proof.
  rewrite count_commitments_zero. intros HF. revert i.
  induction HF as [|out pre Hn HF IH]; intros i.
  - cbn [app length]. now rewrite Nat.add_0_r.
  - cbn [app length]. rewrite scan_outputs_cons_no by exact Hn.
    rewrite IH. f_equal. lia.
Qed.

Lemma scan_outputs_none outs i p idx :
  count_commitments outs = 0%nat ->
  scan_outputs outs i p idx = Done (ScanEnd p idx).
Proof.
  intros H0. rewrite <- (app_nil_r outs).
  now rewrite scan_outputs_skip.
Qed.

(** Once an index is recorded, any further commitment ends the scan. *)
Lemma scan_outputs_second outs i p idx :
  idx <> -1 ->
  count_commitments outs <> 0%nat ->
  scan_outputs outs i p idx = Done ScanReject.
Proof.
  intros Hidx Hc.
  destruct (count_commitments_first outs Hc)
    as (pre & c & post & -> & Hpre & Hcm & _).
  rewrite scan_outputs_skip by exact Hpre.
  destruct (scan_outputs_cons_yes c post (i + length pre) p idx Hcm)
    as (p' & _ & ->).
  now rewrite bool_decide_eq_true_2.
Qed.

(** The scan reads no byte outside a script. *)
Lemma scan_outputs_in_bounds outs i p idx :
  exists r, scan_outputs outs i p idx = Done r.
Proof.
  revert i p idx. induction outs as [|out outs IH]; intros i p idx.
  - now eexists.
  - destruct (decide (is_commitment out)) as [Hy|Hn].
    + destruct (scan_outputs_cons_yes out outs i p idx Hy) as (p' & _ & ->).
      case_bool_decide; [now eexists | apply IH].
    + rewrite scan_outputs_cons_no by exact Hn. apply IH.
Qed.

(** The index the scan ends with is the one it started with or the
    narrowing to [int] of the position of an output. *)
Lemma scan_outputs_index outs i p idx p' idx' :
  scan_outputs outs i p idx = Done (ScanEnd p' idx') ->
  idx' = idx
  \/ exists j : nat, (i <= j < i + length outs)%nat /\ idx' = to_int (Z.of_nat j).
Proof.
  revert i p idx. induction outs as [|out outs IH]; intros i p idx.
  - intros [= <- <-]. now left.
  - destruct (decide (is_commitment out)) as [Hy|Hn].
    + destruct (scan_outputs_cons_yes out outs i p idx Hy) as (q & _ & ->).
      case_bool_decide; [discriminate|].
      intros Hrun. destruct (IH _ _ _ Hrun) as [->|(j & Hj & ->)].
      * right. exists i. cbn [length]. split; [lia|reflexivity].
      * right. exists j. cbn [length]. split; [lia|reflexivity].
    + rewrite scan_outputs_cons_no by exact Hn.
      intros Hrun. destruct (IH _ _ _ Hrun) as [->|(j & Hj & ->)].
      * now left.
      * right. exists j. cbn [length]. split; [lia|reflexivity].
Qed.

End Scan.


Lemma reference_commitment_output (R : Type) (draw : R -> uint256 * R)
    (proof : uint256) :
  is_commitment (host := Reference.make R draw)
    (commitment_output (host := Reference.make R draw) proof).
Proof. now apply encode_commitment_layout. Qed.

(** ** [VerifyBlock] on a block with a coinbase *)

Section Verify.

Context {host : Host}.

Lemma VerifyBlock_coinbase fuel block coinbaseTx prev params rng :
  vtx block !! 0%nat = Some coinbaseTx ->
  VerifyBlock fuel block (Some prev) params rng
  = (r ← scan_outputs (vout coinbaseTx) 0 uint256_zero (-1);
     match r with
     | ScanReject => Done (false, rng)
     | ScanEnd submittedProof commitmentOutIndex =>
         if bool_decide (commitmentOutIndex = -1) then Done (false, rng)
         else
           vout' ← vector_erase (vout coinbaseTx) commitmentOutIndex;
           vtx_temp ← vector_set (vtx block) 0
                        {| nVersion := nVersion coinbaseTx;
                           vin := vin coinbaseTx;
                           vout := vout';
                           nLockTime := nLockTime coinbaseTx |};
           '(expectedProof, rng) ←
             ComputeProof fuel (GetBlockHash prev)
               (BlockMerkleRoot vtx_temp) params rng;
           Done (uint256_eqb submittedProof expectedProof, rng)
     end).
Proof. intros H. unfold VerifyBlock, vector_at. now rewrite H. Qed.

(** A commitment at position [2^31] leaves the negative index [-2^31], and
    [erase] is called outside the vector. *)
Lemma VerifyBlock_index_overflow fuel block coinbaseTx pre c post prev params rng :
  vtx block !! 0%nat = Some coinbaseTx ->
  vout coinbaseTx = pre ++ c :: post ->
  count_commitments pre = 0%nat ->
  count_commitments post = 0%nat ->
  is_commitment c ->
  Z.of_nat (length pre) = 2 ^ 31 ->
  VerifyBlock fuel block (Some prev) params rng = OutOfBounds.
Proof.
  intros Hcb Hvout Hpre Hpost Hc Hn.
  rewrite (VerifyBlock_coinbase _ _ _ _ _ _ Hcb), Hvout.
  rewrite scan_outputs_skip by exact Hpre.
  destruct (scan_outputs_cons_yes c post (0 + length pre) uint256_zero (-1) Hc)
    as (p' & _ & ->).
  rewrite bool_decide_eq_false_2 by lia.
  rewrite scan_outputs_none by exact Hpost.
  cbn [mbind outcome_bind].
  replace (Z.of_nat (0 + length pre)) with (2 ^ 31) by lia.
  change (to_int (2 ^ 31)) with (- 2 ^ 31).
  rewrite bool_decide_eq_false_2 by lia.
  unfold vector_erase. rewrite bool_decide_eq_false_2 by lia.
  reflexivity.
Qed.

(** A commitment at position [2^32 - 1] leaves the index [-1], which reads
    as no commitment yet: a second commitment right after it is taken, and
    when it carries the expected proof the block is accepted. *)
Lemma VerifyBlock_index_alias fuel block coinbaseTx pre c1 c2 post prev params rng :
  vtx block !! 0%nat = Some coinbaseTx ->
  vout coinbaseTx = pre ++ c1 :: c2 :: post ->
  count_commitments pre = 0%nat ->
  count_commitments post = 0%nat ->
  is_commitment c1 ->
  length TCCP_MAGIC_BYTES = 4%nat ->
  scriptPubKey c2 = encode_commitment uint256_zero ->
  Z.of_nat (length pre) = 2 ^ 32 - 1 ->
  (forall tx, synthetic tx ->
     to_size_t (nTCCPChallengeSize params) < txSize tx) ->
  VerifyBlock (S fuel) block (Some prev) params rng
  = Done (true, snd (InsecureRand256 rng)).
Proof.
  intros Hcb Hvout Hpre Hpost Hc1 Hm Hc2 Hn Hsmall.
  assert (Hc2' : is_commitment c2).
  { unfold is_commitment. rewrite Hc2. now apply encode_commitment_layout. }
  rewrite (VerifyBlock_coinbase _ _ _ _ _ _ Hcb), Hvout.
  rewrite scan_outputs_skip by exact Hpre.
  destruct (scan_outputs_cons_yes c1 (c2 :: post) (0 + length pre)
              uint256_zero (-1) Hc1) as (p1 & _ & ->).
  rewrite bool_decide_eq_false_2 by lia.
  replace (Z.of_nat (0 + length pre)) with (2 ^ 32 - 1) by lia.
  change (to_int (2 ^ 32 - 1)) with (-1).
  destruct (scan_outputs_cons_yes c2 post (S (0 + length pre)) p1 (-1) Hc2')
    as (p2 & Hp2 & ->).
  rewrite bool_decide_eq_false_2 by lia.
  replace (Z.of_nat (S (0 + length pre))) with (2 ^ 32) by lia.
  change (to_int (2 ^ 32)) with 0.
  rewrite scan_outputs_none by exact Hpost.
  cbn [mbind outcome_bind].
  rewrite bool_decide_eq_false_2 by lia.
  unfold vector_erase.
  rewrite bool_decide_eq_true_2
    by (rewrite length_app; cbn [length]; lia).
  cbn [mbind outcome_bind]. unfold vector_set.
  rewrite bool_decide_eq_true_2 by (eapply lookup_lt_Some, Hcb).
  cbn [mbind outcome_bind].
  rewrite ComputeProof_too_small by exact Hsmall.
  cbn [mbind outcome_bind].
  assert (Hz : p2 = uint256_zero).
  { apply uint256_eq. rewrite Hp2, Hc2. now apply encode_commitment_bytes. }
  rewrite Hz, uint256_eqb_refl. reflexivity.
Qed.

End Verify.

(** ** A second commitment that the duplicate test misses *)

(** C3. What the code does with two commitments when the first one sits at
    position [2^32 - 1].  Line 97 tests [commitmentOutIndex != -1] to return
    false at a second commitment, and line 99 stores the [size_t] position
    in that [int]: the position [2^32 - 1] is stored as [-1], the value
    that stands for no commitment yet.  The coinbase of this non-genesis
    block has [2^32 + 1] outputs, the last two of them commitments; the
    second one is not seen as a duplicate, it carries the zero value that is
    the expected proof for a challenge size of 0, and [VerifyBlock] returns
    true where the duplicate test was to return false. *)
Theorem VerifyBlock_accepts_two_commitments :
  count_commitments (host := Reference.pinned)
    (replicate (Z.to_nat (2 ^ 32 - 1)) plain_output
     ++ [commitment_output (host := Reference.pinned) seed_one;
         commitment_output (host := Reference.pinned) uint256_zero])
  = 2%nat
  /\ VerifyBlock (host := Reference.pinned) 1
       {| vtx := [ coinbase_of
                     (replicate (Z.to_nat (2 ^ 32 - 1)) plain_output
                      ++ [commitment_output (host := Reference.pinned) seed_one;
                          commitment_output (host := Reference.pinned)
                            uint256_zero]) ] |}
       (Some {| GetBlockHash := uint256_zero |})
       {| nTCCPChallengeSize := 0 |} tt
     = Done (true, tt).
Proof.
  split.
  - rewrite count_commitments_app, count_commitments_replicate_plain.
    rewrite !count_commitments_cons_yes by apply reference_commitment_output.
    reflexivity.
  - eapply (VerifyBlock_index_alias (host := Reference.pinned) 0 _ _
              (replicate (Z.to_nat (2 ^ 32 - 1)) plain_output)
              (commitment_output (host := Reference.pinned) seed_one)
              (commitment_output (host := Reference.pinned) uint256_zero) []).
    + reflexivity.
    + reflexivity.
    + apply count_commitments_replicate_plain.
    + reflexivity.
    + apply reference_commitment_output.
    + reflexivity.
    + reflexivity.
    + rewrite length_replicate. apply Z2Nat.id. lia.
    + intros tx Htx. pose proof (ReferenceFacts.pinned_size tx Htx).
      change (to_size_t (nTCCPChallengeSize {| nTCCPChallengeSize := 0 |}))
        with 0. lia.
Qed.

(** ** The erase of the matched output *)

(** Where the index of line 99 is the position it was taken from.  For a
    non-genesis block with a coinbase of at most [2^31] outputs
    [VerifyBlock] reads and erases inside the vectors: the run does not end
    out of bounds; no script is read outside its 38 bytes; and an index the
    scan leaves is the position of an output, which [erase] accepts. *)
Lemma VerifyBlock_in_bounds {host : Host} (fuel : nat) (block : CBlock)
    (coinbaseTx : CTransaction) (prev : CBlockIndex) (params : Params)
    (rng : Rand) :
  vtx block !! 0%nat = Some coinbaseTx ->
  Z.of_nat (length (vout coinbaseTx)) <= 2 ^ 31 ->
  VerifyBlock fuel block (Some prev) params rng <> OutOfBounds
  /\ vector_at (vtx block) 0 = Done coinbaseTx
  /\ (forall script,
        (length script <> 38%nat -> commitment_data script = Done None)
        /\ commitment_data script <> OutOfBounds
        /\ forall data, commitment_data script = Done (Some data) ->
                        commitment_proof data <> OutOfBounds)
  /\ (forall p idx,
        scan_outputs (vout coinbaseTx) 0 uint256_zero (-1)
        = Done (ScanEnd p idx) ->
        idx <> -1 ->
        0 <= idx < Z.of_nat (length (vout coinbaseTx))
        /\ vector_erase (vout coinbaseTx) idx
           = Done (delete (Z.to_nat idx) (vout coinbaseTx))).
Proof.
  intros Hcb Hlen.
  assert (Hidx : forall p idx,
            scan_outputs (vout coinbaseTx) 0 uint256_zero (-1)
            = Done (ScanEnd p idx) ->
            idx <> -1 ->
            0 <= idx < Z.of_nat (length (vout coinbaseTx))
            /\ vector_erase (vout coinbaseTx) idx
               = Done (delete (Z.to_nat idx) (vout coinbaseTx))).
  { intros p idx Hscan Hne.
    destruct (scan_outputs_index _ _ _ _ _ _ Hscan) as [->|(j & Hj & ->)];
      [done|].
    rewrite to_int_small by (unfold INT_MAX; lia).
    split; [lia|]. unfold vector_erase.
    now rewrite bool_decide_eq_true_2 by lia. }
  split; [|split; [|split]].
  - rewrite (VerifyBlock_coinbase _ _ _ _ _ _ Hcb).
    destruct (scan_outputs_in_bounds (vout coinbaseTx) 0 uint256_zero (-1))
      as [[|p idx] Hscan]; rewrite Hscan; cbn [mbind outcome_bind]; [done|].
    case_bool_decide as Hm; [done|].
    destruct (Hidx p idx Hscan Hm) as [_ ->]. cbn [mbind outcome_bind].
    unfold vector_set.
    rewrite bool_decide_eq_true_2 by (eapply lookup_lt_Some, Hcb).
    cbn [mbind outcome_bind].
    pose proof (ComputeProof_in_bounds fuel (GetBlockHash prev)
                  (BlockMerkleRoot
                     (<[0%nat:={| nVersion := nVersion coinbaseTx;
                                  vin := vin coinbaseTx;
                                  vout := delete (Z.to_nat idx) (vout coinbaseTx);
                                  nLockTime := nLockTime coinbaseTx |}]>
                        (vtx block))) params rng) as Hcp.
    destruct (ComputeProof _ _ _ _ _) as [[e rng']| |]; [done|done|done].
  - unfold vector_at. now rewrite Hcb.
  - intros script. split; [|split].
    + intros Hl. apply commitment_data_not_layout. intros [Hl' _]. done.
    + destruct (decide (commitment_layout script)) as [Hy|Hn].
      * now rewrite (commitment_data_layout _ Hy).
      * now rewrite (commitment_data_not_layout _ Hn).
    + intros data Hd.
      destruct (commitment_data_Some _ _ Hd) as [Hy ->].
      destruct (commitment_proof_ok _ (proj1 Hy)) as (p & -> & _). done.
  - exact Hidx.
Qed.

(** A coinbase of two outputs, the second one a commitment. *)
Lemma VerifyBlock_in_bounds_witness :
  VerifyBlock (host := Reference.pinned) 8
    {| vtx := [ coinbase_of
                  [plain_output;
                   commitment_output (host := Reference.pinned) seed_one] ] |}
    (Some {| GetBlockHash := uint256_zero |})
    {| nTCCPChallengeSize := 500 |} tt
  <> OutOfBounds.
Proof.
  apply (VerifyBlock_in_bounds (host := Reference.pinned) 8
           {| vtx := [ coinbase_of
                         [plain_output;
                          commitment_output (host := Reference.pinned)
                            seed_one] ] |}
           (coinbase_of
              [plain_output;
               commitment_output (host := Reference.pinned) seed_one])).
  - reflexivity.
  - vm_compute. discriminate.
Defined.

(** C10. What the code does when the commitment sits at position [2^31].
    Line 109 erases [vout.begin() + commitmentOutIndex] to remove the
    output the scan matched, and line 99 stored the [size_t] position of
    that output in an [int].  The coinbase of this one-transaction,
    non-genesis block has [2^31 + 1] outputs, the last one a commitment;
    its position [2^31] is stored as [-2^31], and the erase addresses no
    element of the vector. *)
Theorem VerifyBlock_erase_out_of_bounds :
  vtx {| vtx := [ coinbase_of
                    (replicate (Z.to_nat (2 ^ 31)) plain_output
                     ++ [commitment_output (host := Reference.pinned)
                           uint256_zero]) ] |} <> []
  /\ VerifyBlock (host := Reference.pinned) 1
       {| vtx := [ coinbase_of
                     (replicate (Z.to_nat (2 ^ 31)) plain_output
                      ++ [commitment_output (host := Reference.pinned)
                            uint256_zero]) ] |}
       (Some {| GetBlockHash := uint256_zero |})
       {| nTCCPChallengeSize := 500 |} tt
     = OutOfBounds.
Proof.
  split; [discriminate|].
  eapply (VerifyBlock_index_overflow (host := Reference.pinned) 1 _ _
            (replicate (Z.to_nat (2 ^ 31)) plain_output)
            (commitment_output (host := Reference.pinned) uint256_zero) []).
  - reflexivity.
  - reflexivity.
  - apply count_commitments_replicate_plain.
  - reflexivity.
  - apply reference_commitment_output.
  - rewrite length_replicate. apply Z2Nat.id. lia.
Qed.

(** ** The round trip *)

Section RoundTrip.

Context {host : Host}.

(** The transaction and the generator of a pass depend on the random
    context through the value drawn only. *)
Lemma virtual_tx_draw prng rng1 rng2 :
  fst (InsecureRand256 rng1) = fst (InsecureRand256 rng2) ->
  fst (virtual_tx prng rng1) = fst (virtual_tx prng rng2).
Proof.
  unfold virtual_tx.
  destruct (InsecureRand256 rng1) as [h1 r1].
  destruct (InsecureRand256 rng2) as [h2 r2].
  cbn [fst]. intros ->.
  destruct (LCG_next prng) as [r0 p0].
  destruct (LCG_next p0) as [n1 p1].
  destruct (LCG_next p1) as [n2 p2].
  destruct (draw_data 32 p2) as [data p3].
  reflexivity.
Qed.

(** With the random source pinned to one value the challenge set does not
    depend on the random context. *)
Lemma GenerateVirtualChallenge_loop_pinned c fuel maxSize prng txs cur rng1 rng2 res rng1' :
  (forall rng, fst (InsecureRand256 rng) = c) ->
  GenerateVirtualChallenge_loop fuel maxSize prng txs cur rng1 = Done (res, rng1') ->
  exists rng2',
    GenerateVirtualChallenge_loop fuel maxSize prng txs cur rng2 = Done (res, rng2').
Proof.
  intros Hpin. revert prng txs cur rng1 rng2.
  induction fuel as [|fuel IH]; intros prng txs cur rng1 rng2; [done|].
  rewrite !GenerateVirtualChallenge_loop_step.
  pose proof (virtual_tx_draw prng rng1 rng2) as Hd.
  rewrite !Hpin in Hd. specialize (Hd eq_refl).
  destruct (virtual_tx prng rng1) as [[tx1 p1] r1].
  destruct (virtual_tx prng rng2) as [[tx2 p2] r2].
  cbn [fst] in Hd. injection Hd as <- <-.
  destruct (_ >? maxSize).
  - intros [= <- <-]. now eexists.
  - apply IH.
Qed.

Lemma ComputeProof_pinned c fuel prevBlockHash root params rng1 rng2 p rng1' :
  (forall rng, fst (InsecureRand256 rng) = c) ->
  ComputeProof fuel prevBlockHash root params rng1 = Done (p, rng1') ->
  exists rng2',
    ComputeProof fuel prevBlockHash root params rng2 = Done (p, rng2').
Proof.
  intros Hpin. unfold ComputeProof, GenerateVirtualChallenge.
  destruct (GenerateVirtualChallenge_loop fuel _ _ [] 0 rng1)
    as [[v r1]| |] eqn:Hrun; [|done|done].
  destruct (GenerateVirtualChallenge_loop_pinned c _ _ _ _ _ _ rng2 _ _
              Hpin Hrun) as [r2 ->].
  cbn [mbind outcome_bind].
  destruct v; intros [= <- <-]; now eexists.
Qed.

End RoundTrip.

(** The round trip where the index of line 99 is the position it was taken
    from.  Take a block with a coinbase [coinbaseTx] that has no commitment
    among its outputs [pre ++ post], a previous block, and the proof
    [expected] that [ComputeProof] returns for the previous block's hash
    and the Merkle root of the block, the random source pinned to one
    value.  Insert one output that encodes [expected] at a position that an
    [int] can hold, and leave the rest of the block as it is: [VerifyBlock]
    returns true. *)
Lemma VerifyBlock_round_trip {host : Host} (c : uint256) (fuel : nat)
    (block : CBlock) (coinbaseTx : CTransaction) (pre post : list CTxOut)
    (amount : Z) (prev : CBlockIndex) (params : Params) (expected : uint256)
    (rng0 rng0' rng : Rand) :
  length TCCP_MAGIC_BYTES = 4%nat ->
  (forall r, fst (InsecureRand256 r) = c) ->
  vtx block !! 0%nat = Some coinbaseTx ->
  vout coinbaseTx = pre ++ post ->
  count_commitments (pre ++ post) = 0%nat ->
  Z.of_nat (length pre) <= INT_MAX ->
  ComputeProof fuel (GetBlockHash prev) (BlockMerkleRoot (vtx block))
    params rng0 = Done (expected, rng0') ->
  exists rng',
    VerifyBlock fuel
      {| vtx := <[0%nat :=
                  {| nVersion := nVersion coinbaseTx;
                     vin := vin coinbaseTx;
                     vout := pre ++ {| nValue := amount;
                                       scriptPubKey :=
                                         encode_commitment expected |}
                                 :: post;
                     nLockTime := nLockTime coinbaseTx |}]> (vtx block) |}
      (Some prev) params rng
    = Done (true, rng').
Proof.
  intros Hm Hpin Hcb Hvout Hnone Hidx Hexp.
  rewrite count_commitments_app in Hnone.
  assert (Hpre : count_commitments pre = 0%nat) by lia.
  assert (Hpost : count_commitments post = 0%nat) by lia.
  set (com := {| nValue := amount;
                 scriptPubKey := encode_commitment expected |}).
  assert (Hcom : is_commitment com) by now apply encode_commitment_layout.
  pose proof (lookup_lt_Some _ _ _ Hcb) as Hlt.
  erewrite VerifyBlock_coinbase
    by (cbn [vtx]; apply list_lookup_insert_eq; exact Hlt).
  cbn [vout vtx nVersion vin nLockTime].
  rewrite scan_outputs_skip by exact Hpre.
  destruct (scan_outputs_cons_yes com post (0 + length pre) uint256_zero (-1)
              Hcom) as (p & Hp & ->).
  rewrite bool_decide_eq_false_2 by lia.
  rewrite scan_outputs_none by exact Hpost.
  cbn [mbind outcome_bind].
  assert (Hpe : p = expected).
  { apply uint256_eq. rewrite Hp. now apply encode_commitment_bytes. }
  subst p.
  change (0 + length pre)%nat with (length pre).
  pose proof (Nat2Z.is_nonneg (length pre)) as Hnn.
  rewrite to_int_small by lia.
  rewrite bool_decide_eq_false_2 by lia.
  unfold vector_erase.
  rewrite bool_decide_eq_true_2
    by (rewrite length_app; cbn [length]; lia).
  rewrite Nat2Z.id, delete_middle. cbn [mbind outcome_bind].
  unfold vector_set.
  rewrite bool_decide_eq_true_2 by (rewrite length_insert; exact Hlt).
  cbn [mbind outcome_bind].
  rewrite list_insert_insert_eq, <- Hvout.
  assert (Heta : {| nVersion := nVersion coinbaseTx; vin := vin coinbaseTx;
                    vout := vout coinbaseTx;
                    nLockTime := nLockTime coinbaseTx |} = coinbaseTx)
    by now destruct coinbaseTx.
  rewrite Heta, (list_insert_id _ _ _ Hcb).
  destruct (ComputeProof_pinned c _ _ _ _ _ rng _ _ Hpin Hexp) as [rng' ->].
  cbn [mbind outcome_bind]. rewrite uint256_eqb_refl. now eexists.
Qed.

(** A commitment to the proof of a two-output coinbase, inserted between
    the two outputs. *)
Lemma VerifyBlock_round_trip_witness :
  ComputeProof (host := Reference.pinned) 8 seed_one
    (@BlockMerkleRoot Reference.pinned
       [coinbase_of [plain_output; plain_output]])
    {| nTCCPChallengeSize := 500 |} tt
  = Done (example_expected, tt)
  /\ exists rng',
       VerifyBlock (host := Reference.pinned) 8
         {| vtx := <[0%nat :=
              {| nVersion := 1; vin := [];
                 vout := [plain_output]
                         ++ {| nValue := 0;
                               scriptPubKey :=
                                 encode_commitment (host := Reference.pinned)
                                   example_expected |}
                            :: [plain_output];
                 nLockTime := 0 |}]>
              [coinbase_of [plain_output; plain_output]] |}
         (Some {| GetBlockHash := seed_one |})
         {| nTCCPChallengeSize := 500 |} tt
       = Done (true, rng').
Proof.
  assert (Hexp : ComputeProof (host := Reference.pinned) 8 seed_one
            (@BlockMerkleRoot Reference.pinned
               [coinbase_of [plain_output; plain_output]])
            {| nTCCPChallengeSize := 500 |} tt
          = Done (example_expected, tt)) by (vm_compute; reflexivity).
  split; [exact Hexp|].
  apply (VerifyBlock_round_trip (host := Reference.pinned) uint256_zero 8
           {| vtx := [coinbase_of [plain_output; plain_output]] |}
           (coinbase_of [plain_output; plain_output])
           [plain_output] [plain_output] 0
           {| GetBlockHash := seed_one |} {| nTCCPChallengeSize := 500 |}
           example_expected tt tt tt).
  - reflexivity.
  - intros r. reflexivity.
  - reflexivity.
  - reflexivity.
  - vm_compute. reflexivity.
  - vm_compute. discriminate.
  - exact Hexp.
Defined.

(** C2. What the code does with a round trip whose commitment is inserted
    at position [2^31].  The coinbase of this block has [2^31 + 1] outputs
    and no commitment, the random source is pinned, and the proof of the
    block is the zero value (the challenge size is 0).  The commitment to
    that proof is inserted before the last output.  [VerifyBlock] is to
    erase that output (line 109) and compare its proof with the one
    recomputed; the [size_t] position was stored in an [int] at line 99,
    as [-2^31], and the erase leaves the vector instead: the block is not
    verified as true. *)
Theorem VerifyBlock_round_trip_out_of_bounds :
  (forall r, fst (@InsecureRand256 Reference.pinned r) = uint256_zero)
  /\ count_commitments (host := Reference.pinned)
       (replicate (Z.to_nat (2 ^ 31)) plain_output ++ [plain_output]) = 0%nat
  /\ ComputeProof (host := Reference.pinned) 1 uint256_zero
       (@BlockMerkleRoot Reference.pinned
          [coinbase_of
             (replicate (Z.to_nat (2 ^ 31)) plain_output ++ [plain_output])])
       {| nTCCPChallengeSize := 0 |} tt
     = Done (uint256_zero, tt)
  /\ VerifyBlock (host := Reference.pinned) 1
       {| vtx := [ coinbase_of
                     (replicate (Z.to_nat (2 ^ 31)) plain_output
                      ++ commitment_output (host := Reference.pinned)
                           uint256_zero
                         :: [plain_output]) ] |}
       (Some {| GetBlockHash := uint256_zero |})
       {| nTCCPChallengeSize := 0 |} tt
     = OutOfBounds.
Proof.
  assert (Hplain : count_commitments (host := Reference.pinned) [plain_output]
                   = 0%nat).
  { apply (count_commitments_replicate_plain (host := Reference.pinned) 1). }
  split; [reflexivity|]. split; [|split].
  - now rewrite count_commitments_app, count_commitments_replicate_plain, Hplain.
  - apply (ComputeProof_too_small (host := Reference.pinned) 0).
    intros tx Htx. pose proof (ReferenceFacts.pinned_size tx Htx).
    change (to_size_t (nTCCPChallengeSize {| nTCCPChallengeSize := 0 |}))
      with 0. lia.
  - eapply (VerifyBlock_index_overflow (host := Reference.pinned) 1 _ _
              (replicate (Z.to_nat (2 ^ 31)) plain_output)
              (commitment_output (host := Reference.pinned) uint256_zero)
              [plain_output]).
    + reflexivity.
    + reflexivity.
    + apply count_commitments_replicate_plain.
    + exact Hplain.
    + apply reference_commitment_output.
    + rewrite length_replicate. apply Z2Nat.id. lia.
Qed.

(** ** The proof is not a function of its declared inputs *)

(** The first transaction of a challenge set spends the output whose hash
    [InsecureRand256()] returned first: the set is read from the random
    context of the process, not from the seed alone. *)
Lemma GenerateVirtualChallenge_first_prevout {host : Host}
    fuel seed maxSize rng tx txs rng' :
  GenerateVirtualChallenge fuel seed maxSize rng = Done (tx :: txs, rng') ->
  exists i, vin tx = [i]
            /\ outpoint_hash (prevout i) = fst (InsecureRand256 rng).
Proof.
  unfold GenerateVirtualChallenge. intros Hrun.
  destruct (GenerateVirtualChallenge_loop_prefix _ _ _ _ _ _ _ _ Hrun)
    as [k Hk].
  cbn [app] in Hk. destruct k as [|k]; [done|].
  cbn [candidates] in Hk. unfold virtual_tx in Hk.
  destruct (InsecureRand256 rng) as [h rng1].
  destruct (LCG_next (LCG_new seed)) as [r0 p0].
  destruct (LCG_next p0) as [r1 p1].
  destruct (LCG_next p1) as [r2 p2].
  destruct (draw_data 32 p2) as [data p3].
  injection Hk as -> _. cbn [vin]. now eexists.
Qed.

(** C1, what the code does. On the reference host, whose random source
    counts its calls, two successive calls of [ComputeProof] with the same
    previous hash, the same Merkle root and the same size limit return two
    different proofs. *)
Theorem ComputeProof_not_reproducible :
  exists (p1 p2 : uint256) (rng1 rng2 : nat),
    ComputeProof (host := Reference.counting) 8 seed_one seed_one
      {| nTCCPChallengeSize := 500 |} 0%nat = Done (p1, rng1)
    /\ ComputeProof (host := Reference.counting) 8 seed_one seed_one
         {| nTCCPChallengeSize := 500 |} rng1 = Done (p2, rng2)
    /\ p1 <> p2.
Proof.
  eexists _, _, _, _.
  split; [vm_compute; reflexivity|].
  split; [vm_compute; reflexivity|].
  intros Heq. apply (f_equal u256_bytes) in Heq.
  vm_compute in Heq. discriminate Heq.
Qed.

(** * Part III: further properties of the code *)

(** ** The generator is a permutation of the 64-bit states *)

(** X1. The state before a call of [next()] can be computed back from the
    state after it (the multiplier is odd, 17196263117099653317 is its
    inverse modulo [2^64]): two different 64-bit states never step to the
    same state, so the generator cannot fall into a shorter cycle that it
    did not start in. *)
Theorem LCG_next_invertible (s : Z) :
  0 <= s < 2 ^ 64 ->
  (17196263117099653317
   * (m_state (snd (LCG_next {| m_state := s |})) - 1013904223)) mod 2 ^ 64
  = s
  /\ forall s', 0 <= s' < 2 ^ 64 ->
        m_state (snd (LCG_next {| m_state := s' |}))
        = m_state (snd (LCG_next {| m_state := s |})) ->
        s' = s.
Proof.
  assert (Hinv : forall t, 0 <= t < 2 ^ 64 ->
            (17196263117099653317
             * (m_state (snd (LCG_next {| m_state := t |})) - 1013904223))
            mod 2 ^ 64 = t).
  { intros t Ht. unfold LCG_next, to_uint64. cbn [snd m_state].
    rewrite <- Zmult_mod_idemp_r, Zminus_mod_idemp_l.
    replace (1664525 * t + 1013904223 - 1013904223) with (1664525 * t) by lia.
    rewrite Zmult_mod_idemp_r, Z.mul_assoc, <- Zmult_mod_idemp_l.
    change ((17196263117099653317 * 1664525) mod 2 ^ 64) with 1.
    rewrite Z.mul_1_l. apply Z.mod_small. exact Ht. }
  intros Hs. split; [apply Hinv; exact Hs|].
  intros s' Hs' Heq.
  rewrite <- (Hinv s' Hs'), <- (Hinv s Hs), Heq. reflexivity.
Qed.

(** The state 1 is the only one before 1015568748. *)
Lemma LCG_next_invertible_witness :
  0 <= 1 < 2 ^ 64
  /\ (17196263117099653317 * (1015568748 - 1013904223)) mod 2 ^ 64 = 1.
Proof.
  assert (Hs : 0 <= 1 < 2 ^ 64) by lia.
  split; [exact Hs|].
  exact (proj1 (LCG_next_invertible 1 Hs)).
Defined.

(** ** What a pass of the loop draws *)

Section Passes.

Context {host : Host}.

Lemma LCG_skip_add (a b : nat) (g : LCG) :
  LCG_skip (a + b) g = LCG_skip b (LCG_skip a g).
Proof.
  revert g. induction a as [|a IH]; intros g; [reflexivity|].
  cbn [Nat.add LCG_skip]. apply IH.
Qed.

Lemma draw_data_skip (k : nat) (prng : LCG) :
  snd (draw_data k prng) = LCG_skip k prng.
Proof.
  revert prng. induction k as [|k IH]; intros prng; [reflexivity|].
  cbn [draw_data LCG_skip].
  destruct (LCG_next prng) as [r prng1]. specialize (IH prng1).
  destruct (draw_data k prng1) as [rest prng2]. exact IH.
Qed.

(** A pass calls [next()] 35 times, whatever it draws elsewhere. *)
Lemma virtual_tx_generator (prng : LCG) (rng : Rand) :
  snd (fst (virtual_tx prng rng)) = LCG_skip 35 prng.
Proof.
  change 35%nat with (3 + 32)%nat.
  rewrite LCG_skip_add, <- (draw_data_skip 32).
  unfold virtual_tx. cbn [LCG_skip].
  destruct (InsecureRand256 rng) as [h rng1].
  destruct (LCG_next prng) as [r0 p0]. cbn [snd].
  destruct (LCG_next p0) as [r1 p1]. cbn [snd].
  destruct (LCG_next p1) as [r2 p2]. cbn [snd].
  destruct (draw_data 32 p2) as [data p3]. reflexivity.
Qed.

(** A pass calls [InsecureRand256()] once. *)
Lemma virtual_tx_rand (prng : LCG) (rng : Rand) :
  snd (virtual_tx prng rng) = snd (InsecureRand256 rng).
Proof.
  unfold virtual_tx.
  destruct (InsecureRand256 rng) as [h rng1].
  destruct (LCG_next prng) as [r0 p0].
  destruct (LCG_next p0) as [r1 p1].
  destruct (LCG_next p1) as [r2 p2].
  destruct (draw_data 32 p2) as [data p3]. reflexivity.
Qed.

(** The value drawn from the random context goes to the hash of the spent
    output and nowhere else. *)
Lemma virtual_tx_clear (prng : LCG) (rng1 rng2 : Rand) :
  clear_prevout_hash (virtual_tx prng rng1).1.1
  = clear_prevout_hash (virtual_tx prng rng2).1.1.
Proof.
  unfold virtual_tx.
  destruct (InsecureRand256 rng1) as [h1 r1].
  destruct (InsecureRand256 rng2) as [h2 r2].
  destruct (LCG_next prng) as [r0 p0].
  destruct (LCG_next p0) as [n1 p1].
  destruct (LCG_next p1) as [n2 p2].
  destruct (draw_data 32 p2) as [data p3]. reflexivity.
Qed.

Lemma draw_data_size (k : nat) (prng : LCG) :
  length (draw_data k prng).1 = k.
Proof.
  revert prng. induction k as [|k IH]; intros prng; cbn [draw_data]; [done|].
  destruct (LCG_next prng) as [r prng1].
  specialize (IH prng1). destruct (draw_data k prng1) as [rest prng2].
  cbn [fst length] in *. now rewrite IH.
Qed.

Lemma virtual_tx_shape (prng : LCG) (rng : Rand) :
  virtual_shape (virtual_tx prng rng).1.1.
Proof.
  unfold virtual_tx.
  destruct (InsecureRand256 rng) as [h rng1].
  destruct (LCG_next prng) as [r0 p0].
  destruct (LCG_next p0) as [r1 p1].
  destruct (LCG_next p1) as [r2 p2].
  pose proof (draw_data_size 32 p2) as Hd.
  destruct (draw_data 32 p2) as [data p3]. cbn [fst] in *.
  assert (Hn : 0 <= r0 mod 100 < 100) by (apply Z.mod_pos_bound; lia).
  split; [reflexivity|]. split; [reflexivity|]. split.
  - exists h, (to_uint32 (r0 mod 100)), (push_int64 (push_int64 [] r1) r2).
    split; [reflexivity|].
    unfold to_uint32. rewrite Z.mod_small by lia. exact Hn.
  - exists data. split; [exact Hd|reflexivity].
Qed.

Lemma candidates_lookup (k i : nat) (prng : LCG) (rng : Rand) tx :
  candidates k prng rng !! i = Some tx -> tx = candidate i prng rng.
Proof.
  revert i prng rng. induction k as [|k IH]; intros i prng rng; [done|].
  cbn [candidates].
  destruct i as [|i]; cbn [candidate].
  - destruct (virtual_tx prng rng) as [[tx0 prng'] rng']. now intros [= <-].
  - destruct (virtual_tx prng rng) as [[tx0 prng'] rng']. apply IH.
Qed.

Lemma candidates_shape (k : nat) (prng : LCG) (rng : Rand) :
  Forall virtual_shape (candidates k prng rng).
Proof.
  revert prng rng. induction k as [|k IH]; intros prng rng; cbn [candidates].
  - constructor.
  - pose proof (virtual_tx_shape prng rng) as Hs.
    destruct (virtual_tx prng rng) as [[tx prng'] rng'].
    constructor; [exact Hs | apply IH].
Qed.

(** The transaction of pass [k], its spent hash apart, is the one a first
    pass builds from the generator advanced by [35 * k] calls. *)
Lemma candidate_clear (k : nat) (prng : LCG) (rng r : Rand) :
  clear_prevout_hash (candidate k prng rng)
  = clear_prevout_hash (virtual_tx (LCG_skip (35 * k) prng) r).1.1.
Proof.
  revert prng rng. induction k as [|k IH]; intros prng rng.
  - rewrite Nat.mul_0_r. cbn [candidate LCG_skip].
    pose proof (virtual_tx_clear prng rng r) as Hc.
    destruct (virtual_tx prng rng) as [[tx prng'] rng']. exact Hc.
  - replace (35 * S k)%nat with (35 + 35 * k)%nat by lia.
    rewrite LCG_skip_add. cbn [candidate].
    pose proof (virtual_tx_generator prng rng) as Hg.
    destruct (virtual_tx prng rng) as [[tx prng'] rng'].
    cbn [fst snd] in Hg. subst prng'. apply IH.
Qed.

(** What the loop returns and where it leaves the random context. *)
Lemma GenerateVirtualChallenge_loop_trace fuel maxSize prng txs cur rng res rng' :
  GenerateVirtualChallenge_loop fuel maxSize prng txs cur rng = Done (res, rng') ->
  exists k : nat,
    res = txs ++ candidates k prng rng /\ rng' = draws (S k) rng.
Proof.
  revert prng txs cur rng.
  induction fuel as [|fuel IH]; intros prng txs cur rng; [done|].
  rewrite GenerateVirtualChallenge_loop_step.
  pose proof (virtual_tx_rand prng rng) as Hr.
  destruct (virtual_tx prng rng) as [[tx prng1] rng1] eqn:E.
  cbn [snd] in Hr. subst rng1.
  destruct (_ >? maxSize).
  - intros [= <- <-]. exists 0%nat. cbn [candidates draws].
    now rewrite app_nil_r.
  - intros Hrun. destruct (IH _ _ _ _ Hrun) as (k & -> & ->).
    exists (S k). cbn [candidates]. rewrite E, <- app_assoc.
    split; reflexivity.
Qed.

End Passes.

(** ** The transactions of a challenge set *)

(** X2. Every transaction of a challenge set the builder returns has the
    shape lines 46 to 57 give it: version 1, lock time 0, a single input
    spending an output numbered 0 to 99, a single output of value zero
    whose script is [OP_RETURN] followed by a push of 32 bytes. *)
Theorem GenerateVirtualChallenge_shape {host : Host} (fuel : nat)
    (seed : uint256) (maxSize : Z) (rng rng' : Rand)
    (txs : list CTransaction) :
  GenerateVirtualChallenge fuel seed maxSize rng = Done (txs, rng') ->
  Forall virtual_shape txs.
Proof.
  unfold GenerateVirtualChallenge. intros Hrun.
  destruct (GenerateVirtualChallenge_loop_trace _ _ _ _ _ _ _ _ Hrun)
    as (k & -> & _).
  cbn [app]. apply candidates_shape.
Qed.

(** The four transactions of the 500-byte challenge of the reference host. *)
Lemma GenerateVirtualChallenge_shape_witness :
  exists (txs : list CTransaction) (rng' : nat),
    GenerateVirtualChallenge (host := Reference.counting) 8 seed_one 500 0%nat
    = Done (txs, rng')
    /\ length txs = 4%nat
    /\ Forall (virtual_shape (host := Reference.counting)) txs.
Proof.
  eexists _, _.
  split; [vm_compute; reflexivity|]. split; [reflexivity|].
  eapply (GenerateVirtualChallenge_shape (host := Reference.counting)
            8 seed_one 500 0%nat).
  vm_compute. reflexivity.
Defined.

(** X3. A call of the builder that returns [n] transactions has called
    [InsecureRand256()] exactly [n + 1] times: once for each transaction it
    kept and once for the candidate it rejected. *)
Theorem GenerateVirtualChallenge_draws {host : Host} (fuel : nat)
    (seed : uint256) (maxSize : Z) (rng rng' : Rand)
    (txs : list CTransaction) :
  GenerateVirtualChallenge fuel seed maxSize rng = Done (txs, rng') ->
  rng' = draws (S (length txs)) rng.
Proof.
  unfold GenerateVirtualChallenge. intros Hrun.
  destruct (GenerateVirtualChallenge_loop_trace _ _ _ _ _ _ _ _ Hrun)
    as (k & -> & ->).
  cbn [app]. now rewrite candidates_length.
Qed.

(** On the reference host the call counter goes from 0 to 5 for the four
    transactions of the 500-byte challenge. *)
Lemma GenerateVirtualChallenge_draws_witness :
  exists txs : list CTransaction,
    GenerateVirtualChallenge (host := Reference.counting) 8 seed_one 500 0%nat
    = Done (txs, 5%nat)
    /\ 5%nat = draws (host := Reference.counting) (S (length txs)) 0%nat.
Proof.
  eexists. split; [vm_compute; reflexivity|].
  eapply (GenerateVirtualChallenge_draws (host := Reference.counting)
            8 seed_one 500 0%nat).
  vm_compute. reflexivity.
Defined.

(** X4. The transaction at position [k] of a challenge set is, the hash of
    its spent output apart, the transaction a first pass of the loop builds
    when the generator of the seed has been advanced by [35 * k] calls of
    [next()]: every pass uses 35 outputs of the generator, none twice, and
    nothing of the random context reaches the other fields. *)
Theorem GenerateVirtualChallenge_transaction {host : Host} (fuel : nat)
    (seed : uint256) (maxSize : Z) (rng rng' : Rand)
    (txs : list CTransaction) (k : nat) (tx : CTransaction) :
  GenerateVirtualChallenge fuel seed maxSize rng = Done (txs, rng') ->
  txs !! k = Some tx ->
  forall r : Rand,
    clear_prevout_hash tx
    = clear_prevout_hash
        (virtual_tx (LCG_skip (35 * k) (LCG_new seed)) r).1.1.
Proof.
  unfold GenerateVirtualChallenge. intros Hrun Hk r.
  destruct (GenerateVirtualChallenge_loop_trace _ _ _ _ _ _ _ _ Hrun)
    as (n & -> & _).
  cbn [app] in Hk. apply candidates_lookup in Hk. subst tx.
  apply candidate_clear.
Qed.

(** The third transaction of the 500-byte challenge of the reference host
    and the generator advanced by 70 calls. *)
Lemma GenerateVirtualChallenge_transaction_witness :
  exists (txs : list CTransaction) (rng' : nat) (tx : CTransaction),
    GenerateVirtualChallenge (host := Reference.counting) 8 seed_one 500 0%nat
    = Done (txs, rng')
    /\ txs !! 2%nat = Some tx
    /\ clear_prevout_hash tx
       = clear_prevout_hash
           (virtual_tx (host := Reference.counting)
              (LCG_skip (35 * 2) (LCG_new seed_one)) 9%nat).1.1.
Proof.
  eexists _, _, _.
  split; [vm_compute; reflexivity|]. split; [vm_compute; reflexivity|].
  eapply (GenerateVirtualChallenge_transaction (host := Reference.counting)
            8 seed_one 500 0%nat) with (k := 2%nat).
  - vm_compute. reflexivity.
  - vm_compute. reflexivity.
Defined.

(** X5. Two calls of the builder with the same seed, whatever their size
    limits and random contexts, return transactions that agree at every
    position both sets have, the hash of the spent output apart: the random
    source decides that hash and nothing else of a transaction. *)
Theorem GenerateVirtualChallenge_random_field {host : Host}
    (fuel1 fuel2 : nat) (seed : uint256) (maxSize1 maxSize2 : Z)
    (rng1 rng2 rng1' rng2' : Rand) (txs1 txs2 : list CTransaction)
    (k : nat) (tx1 tx2 : CTransaction) :
  GenerateVirtualChallenge fuel1 seed maxSize1 rng1 = Done (txs1, rng1') ->
  GenerateVirtualChallenge fuel2 seed maxSize2 rng2 = Done (txs2, rng2') ->
  txs1 !! k = Some tx1 ->
  txs2 !! k = Some tx2 ->
  clear_prevout_hash tx1 = clear_prevout_hash tx2.
Proof.
  unfold GenerateVirtualChallenge. intros Hrun1 Hrun2 Hk1 Hk2.
  destruct (GenerateVirtualChallenge_loop_trace _ _ _ _ _ _ _ _ Hrun1)
    as (n1 & -> & _).
  destruct (GenerateVirtualChallenge_loop_trace _ _ _ _ _ _ _ _ Hrun2)
    as (n2 & -> & _).
  cbn [app] in Hk1, Hk2.
  apply candidates_lookup in Hk1. apply candidates_lookup in Hk2. subst.
  rewrite (candidate_clear k _ rng1 rng2), (candidate_clear k _ rng2 rng2).
  reflexivity.
Qed.

(** Two runs on the reference host, with limits of 500 and 300 bytes and
    the call counter at 0 and at 7: the second transactions differ, and
    agree once the spent hash is cleared. *)
Lemma GenerateVirtualChallenge_random_field_witness :
  exists (txs1 txs2 : list CTransaction) (r1 r2 : nat) (tx1 tx2 : CTransaction),
    GenerateVirtualChallenge (host := Reference.counting) 8 seed_one 500 0%nat
    = Done (txs1, r1)
    /\ GenerateVirtualChallenge (host := Reference.counting) 8 seed_one 300
         7%nat = Done (txs2, r2)
    /\ txs1 !! 1%nat = Some tx1
    /\ txs2 !! 1%nat = Some tx2
    /\ tx1 <> tx2
    /\ clear_prevout_hash tx1 = clear_prevout_hash tx2.
Proof.
  eexists _, _, _, _, _, _.
  split; [vm_compute; reflexivity|]. split; [vm_compute; reflexivity|].
  split; [vm_compute; reflexivity|]. split; [vm_compute; reflexivity|].
  split.
  - intros Heq. apply (f_equal vin) in Heq. vm_compute in Heq.
    discriminate Heq.
  - eapply (GenerateVirtualChallenge_random_field (host := Reference.counting)
              8 8 seed_one 500 300 0%nat 7%nat) with (k := 1%nat).
    + vm_compute. reflexivity.
    + vm_compute. reflexivity.
    + vm_compute. reflexivity.
    + vm_compute. reflexivity.
Defined.

(** ** The size limit and the length of the challenge set *)

Section Budget.

Context {host : Host}.

Lemma candidates_step (k : nat) (prng : LCG) (rng : Rand) :
  candidates (S k) prng rng
  = let '(tx, prng', rng') := virtual_tx prng rng in
    tx :: candidates k prng' rng'.
Proof. reflexivity. Qed.

Lemma candidate_step (k : nat) (prng : LCG) (rng : Rand) :
  candidate (S k) prng rng
  = let '(tx, prng', rng') := virtual_tx prng rng in candidate k prng' rng'.
Proof. reflexivity. Qed.

Lemma candidates_succ (k : nat) (prng : LCG) (rng : Rand) :
  candidates (S k) prng rng = candidates k prng rng ++ [candidate k prng rng].
Proof.
  revert prng rng. induction k as [|k IH]; intros prng rng.
  - cbn [candidates candidate app].
    now destruct (virtual_tx prng rng) as [[tx prng'] rng'].
  - rewrite (candidates_step (S k)), (candidates_step k), (candidate_step k).
    destruct (virtual_tx prng rng) as [[tx prng'] rng'].
    rewrite IH. reflexivity.
Qed.

Lemma candidates_prefix (k k' : nat) (prng : LCG) (rng : Rand) :
  (k <= k')%nat ->
  exists tail, candidates k' prng rng = candidates k prng rng ++ tail.
Proof.
  induction 1 as [|k' Hle [tail IH]].
  - exists []. now rewrite app_nil_r.
  - exists (tail ++ [candidate k' prng rng]).
    now rewrite candidates_succ, IH, <- app_assoc.
Qed.

Lemma total_size_candidates_bounds (lo hi : Z) (k : nat) (prng : LCG)
    (rng : Rand) :
  (forall tx, synthetic tx -> lo <= txSize tx <= hi) ->
  lo * Z.of_nat k <= total_size (candidates k prng rng) <= hi * Z.of_nat k.
Proof.
  intros Hsz. revert prng rng.
  induction k as [|k IH]; intros prng rng; cbn [candidates].
  - cbn [total_size]. lia.
  - destruct (virtual_tx prng rng) as [[tx prng'] rng'] eqn:E.
    cbn [total_size]. specialize (IH prng' rng').
    pose proof (Hsz tx (virtual_tx_synthetic _ _ _ _ _ E)). lia.
Qed.

(** The builder on a budget where no addition wraps: it returns the first
    [k] candidates, [k] the first position whose candidate does not fit. *)
Lemma GenerateVirtualChallenge_returns (B : Z) (seed : uint256) (maxSize : Z)
    (rng : Rand) :
  0 <= maxSize ->
  maxSize + B <= SIZE_MAX ->
  (forall tx, synthetic tx -> 0 < txSize tx <= B) ->
  exists (k : nat) (rng' : Rand),
    GenerateVirtualChallenge (S (Z.to_nat maxSize)) seed maxSize rng
    = Done (candidates k (LCG_new seed) rng, rng')
    /\ total_size (candidates k (LCG_new seed) rng) <= maxSize
    /\ maxSize < total_size (candidates (S k) (LCG_new seed) rng).
Proof.
  intros Hmax Hvalid Hsz.
  assert (Hcur : 0 <= 0 <= maxSize) by lia.
  assert (Hfuel : (Z.to_nat (maxSize - 0) < S (Z.to_nat maxSize))%nat)
    by (rewrite Z.sub_0_r; lia).
  destruct (GenerateVirtualChallenge_loop_returns B (S (Z.to_nat maxSize))
              maxSize (LCG_new seed) [] 0 rng Hvalid Hsz Hcur Hfuel)
    as [[res rng'] Hrun].
  destruct (GenerateVirtualChallenge_loop_done B _ _ _ _ _ _ _ _ Hvalid
              (fun tx H => proj2 (Hsz tx H)) Hcur Hrun)
    as (k & _ & Hres & Hfit & Hrej & _).
  exists k, rng'. unfold GenerateVirtualChallenge.
  rewrite Hrun, Hres, candidates_succ, total_size_app.
  cbn [app total_size]. repeat split; lia.
Qed.

End Budget.

(** X6. A larger size limit extends the challenge set: for one seed and one
    random context, and limits [maxSize1 <= maxSize2] in the range where the
    additions of line 61 are exact, the set built for [maxSize1] is a
    prefix of the set built for [maxSize2]. *)
Theorem GenerateVirtualChallenge_budget_monotone {host : Host} (B : Z)
    (seed : uint256) (maxSize1 maxSize2 : Z) (rng : Rand) :
  0 <= maxSize1 <= maxSize2 ->
  maxSize2 + B <= SIZE_MAX ->
  (forall tx, synthetic tx -> 0 < txSize tx <= B) ->
  exists (txs1 more : list CTransaction) (rng1 rng2 : Rand),
    GenerateVirtualChallenge (S (Z.to_nat maxSize1)) seed maxSize1 rng
    = Done (txs1, rng1)
    /\ GenerateVirtualChallenge (S (Z.to_nat maxSize2)) seed maxSize2 rng
       = Done (txs1 ++ more, rng2).
Proof.
  intros Hmax Hvalid Hsz.
  destruct (GenerateVirtualChallenge_returns B seed maxSize1 rng)
    as (k1 & rng1 & Hrun1 & Hfit1 & Hrej1); [lia|lia|exact Hsz|].
  destruct (GenerateVirtualChallenge_returns B seed maxSize2 rng)
    as (k2 & rng2 & Hrun2 & Hfit2 & Hrej2); [lia|lia|exact Hsz|].
  assert (Hle : (k1 <= k2)%nat).
  { destruct (Nat.le_gt_cases k1 k2) as [Hle|Hgt]; [exact Hle|exfalso].
    destruct (candidates_prefix (S k2) k1 (LCG_new seed) rng Hgt)
      as [tail Htail].
    rewrite Htail, total_size_app in Hfit1.
    pose proof (total_size_nonneg tail). lia. }
  destruct (candidates_prefix k1 k2 (LCG_new seed) rng Hle) as [more Hmore].
  exists (candidates k1 (LCG_new seed) rng), more, rng1, rng2.
  split; [exact Hrun1|]. rewrite <- Hmore. exact Hrun2.
Qed.

(** On the reference host, limits of 300 and 500 bytes. *)
Lemma GenerateVirtualChallenge_budget_monotone_witness :
  (forall tx, synthetic (host := Reference.counting) tx ->
              0 < txSize (host := Reference.counting) tx <= 114)
  /\ exists (txs1 more : list CTransaction) (rng1 rng2 : nat),
       GenerateVirtualChallenge (host := Reference.counting)
         (S (Z.to_nat 300)) seed_one 300 0%nat = Done (txs1, rng1)
       /\ GenerateVirtualChallenge (host := Reference.counting)
            (S (Z.to_nat 500)) seed_one 500 0%nat = Done (txs1 ++ more, rng2).
Proof.
  assert (Hsz : forall tx, synthetic (host := Reference.counting) tx ->
                  0 < txSize (host := Reference.counting) tx <= 114).
  { intros tx Htx. pose proof (ReferenceFacts.counting_size tx Htx). lia. }
  split; [exact Hsz|].
  apply (GenerateVirtualChallenge_budget_monotone (host := Reference.counting)
           114 seed_one 300 500 0%nat); [lia | unfold SIZE_MAX; lia | exact Hsz].
Defined.

(** X7. When every synthetic transaction takes [lo] to [hi] bytes, [lo]
    positive, and no addition of line 61 wraps, the builder returns [n]
    transactions with [lo * n <= maxSize < hi * (n + 1)]: the loop makes
    at most [maxSize / lo + 1] passes and the set is no shorter than the
    limit allows. *)
Theorem GenerateVirtualChallenge_length {host : Host} (lo hi : Z)
    (seed : uint256) (maxSize : Z) (rng : Rand) :
  0 <= maxSize ->
  maxSize + hi <= SIZE_MAX ->
  0 < lo ->
  (forall tx, synthetic tx -> lo <= txSize tx <= hi) ->
  exists (txs : list CTransaction) (rng' : Rand),
    GenerateVirtualChallenge (S (Z.to_nat maxSize)) seed maxSize rng
    = Done (txs, rng')
    /\ lo * Z.of_nat (length txs) <= maxSize
    /\ maxSize < hi * (Z.of_nat (length txs) + 1).
Proof.
  intros Hmax Hvalid Hlo Hsz.
  destruct (GenerateVirtualChallenge_returns hi seed maxSize rng)
    as (k & rng' & Hrun & Hfit & Hrej); [lia|lia| |].
  { intros tx Htx. pose proof (Hsz tx Htx). lia. }
  exists (candidates k (LCG_new seed) rng), rng'.
  rewrite candidates_length.
  pose proof (total_size_candidates_bounds lo hi k (LCG_new seed) rng Hsz).
  pose proof (total_size_candidates_bounds lo hi (S k) (LCG_new seed) rng Hsz).
  split; [exact Hrun|]. lia.
Qed.

(** On the reference host a limit of 500 bytes gives 4 or 5 transactions. *)
Lemma GenerateVirtualChallenge_length_witness :
  (forall tx, synthetic (host := Reference.counting) tx ->
              96 <= txSize (host := Reference.counting) tx <= 114)
  /\ exists (txs : list CTransaction) (rng' : nat),
       GenerateVirtualChallenge (host := Reference.counting)
         (S (Z.to_nat 500)) seed_one 500 0%nat = Done (txs, rng')
       /\ 96 * Z.of_nat (length txs) <= 500
       /\ 500 < 114 * (Z.of_nat (length txs) + 1).
Proof.
  split; [exact ReferenceFacts.counting_size|].
  apply (GenerateVirtualChallenge_length (host := Reference.counting)
           96 114 seed_one 500 0%nat);
    [lia | unfold SIZE_MAX; lia | lia | exact ReferenceFacts.counting_size].
Defined.

(** ** [VerifyBlock] on a coinbase with one commitment *)

Section OneCommitment.

Context {host : Host}.

Lemma commitment_layout_prefix (script : CScript) :
  commitment_layout script ->
  script = OP_RETURN :: x24 :: TCCP_MAGIC_BYTES ++ drop 6 script.
Proof.
  intros (Hlen & H0 & H1 & Hmagic).
  destruct script as [|b0 [|b1 rest]]; [done|done|].
  cbn in H0, H1. injection H0 as ->. injection H1 as ->.
  change (drop 2 (OP_RETURN :: x24 :: rest)) with rest in Hmagic.
  change (drop 6 (OP_RETURN :: x24 :: rest)) with (drop 4 rest).
  now rewrite <- Hmagic, take_drop.
Qed.

Lemma magic_size_layout (script : CScript) :
  commitment_layout script -> length TCCP_MAGIC_BYTES = 4%nat.
Proof.
  intros (Hlen & _ & _ & Hmagic).
  rewrite <- Hmagic, length_take, length_drop. lia.
Qed.

(** With one commitment, at a position an [int] holds, the answer is the
    comparison of bytes 6 to 37 of its script with the proof computed for
    the block without it. *)
Lemma VerifyBlock_one_commitment fuel block coinbaseTx pre c post prev params rng :
  vtx block !! 0%nat = Some coinbaseTx ->
  vout coinbaseTx = pre ++ c :: post ->
  count_commitments (pre ++ post) = 0%nat ->
  is_commitment c ->
  Z.of_nat (length pre) <= INT_MAX ->
  VerifyBlock fuel block (Some prev) params rng
  = ('(expectedProof, rng') ←
       ComputeProof fuel (GetBlockHash prev)
         (BlockMerkleRoot
            (<[0%nat := {| nVersion := nVersion coinbaseTx;
                           vin := vin coinbaseTx;
                           vout := pre ++ post;
                           nLockTime := nLockTime coinbaseTx |}]>
               (vtx block))) params rng;
     Done (bool_decide (drop 6 (scriptPubKey c) = u256_bytes expectedProof),
           rng')).
Proof.
  intros Hcb Hvout Hnone Hc Hidx.
  rewrite count_commitments_app in Hnone.
  assert (Hpre : count_commitments pre = 0%nat) by lia.
  assert (Hpost : count_commitments post = 0%nat) by lia.
  rewrite (VerifyBlock_coinbase _ _ _ _ _ _ Hcb), Hvout.
  rewrite scan_outputs_skip by exact Hpre.
  destruct (scan_outputs_cons_yes c post (0 + length pre) uint256_zero (-1) Hc)
    as (p & Hp & ->).
  rewrite bool_decide_eq_false_2 by lia.
  rewrite scan_outputs_none by exact Hpost.
  cbn [mbind outcome_bind].
  change (0 + length pre)%nat with (length pre).
  pose proof (Nat2Z.is_nonneg (length pre)) as Hnn.
  rewrite to_int_small by lia.
  rewrite bool_decide_eq_false_2 by lia.
  unfold vector_erase.
  rewrite bool_decide_eq_true_2
    by (rewrite length_app; cbn [length]; lia).
  rewrite Nat2Z.id, delete_middle. cbn [mbind outcome_bind].
  unfold vector_set.
  rewrite bool_decide_eq_true_2 by (eapply lookup_lt_Some, Hcb).
  cbn [mbind outcome_bind].
  assert (Hbytes : u256_bytes p = drop 6 (scriptPubKey c)).
  { rewrite Hp. apply take_ge. rewrite length_drop.
    destruct Hc as [-> _]. lia. }
  unfold uint256_eqb. rewrite Hbytes. reflexivity.
Qed.

(** While the vectors are not longer than an [int] counts, the run leaves
    no vector. *)
Lemma VerifyBlock_no_fault fuel block coinbaseTx prev params rng :
  vtx block !! 0%nat = Some coinbaseTx ->
  Z.of_nat (length (vout coinbaseTx)) <= 2 ^ 31 ->
  VerifyBlock fuel block (Some prev) params rng <> OutOfBounds.
Proof.
  intros Hcb Hlen.
  rewrite (VerifyBlock_coinbase _ _ _ _ _ _ Hcb).
  destruct (scan_outputs_in_bounds (vout coinbaseTx) 0 uint256_zero (-1))
    as [[|p idx] Hscan]; rewrite Hscan; cbn [mbind outcome_bind]; [done|].
  case_bool_decide as Hm; [done|].
  destruct (scan_outputs_index _ _ _ _ _ _ Hscan) as [->|(j & Hj & ->)];
    [done|].
  rewrite to_int_small by (unfold INT_MAX; lia).
  unfold vector_erase. rewrite bool_decide_eq_true_2 by lia.
  cbn [mbind outcome_bind]. unfold vector_set.
  rewrite bool_decide_eq_true_2 by (eapply lookup_lt_Some, Hcb).
  cbn [mbind outcome_bind].
  match goal with
  | |- context [ComputeProof ?f ?h ?r ?pa ?g] =>
      pose proof (ComputeProof_in_bounds f h r pa g) as Hcp;
      destruct (ComputeProof f h r pa g) as [[e rng']| |]
  end; done.
Qed.

Lemma bad_magic_no_commitment (outs : list CTxOut) :
  length TCCP_MAGIC_BYTES <> 4%nat -> count_commitments outs = 0%nat.
Proof.
  intros Hm. apply count_commitments_zero, Forall_forall.
  intros out _ Hc. apply Hm. exact (magic_size_layout _ Hc).
Qed.

End OneCommitment.

(** X8. For a non-genesis block whose coinbase has exactly one commitment
    output, at a position an [int] holds: when [ComputeProof] returns
    [expected] for the previous block's hash and the Merkle root of the
    block with that output removed (the other outputs in their order),
    [VerifyBlock] returns whether bytes 6 to 37 of the commitment script
    are the bytes of [expected]; any other 32 bytes are rejected. *)
Theorem VerifyBlock_single_commitment {host : Host} (fuel : nat)
    (block : CBlock) (coinbaseTx : CTransaction) (pre post : list CTxOut)
    (c : CTxOut) (prev : CBlockIndex) (params : Params)
    (expected : uint256) (rng rng' : Rand) :
  vtx block !! 0%nat = Some coinbaseTx ->
  vout coinbaseTx = pre ++ c :: post ->
  count_commitments (pre ++ post) = 0%nat ->
  is_commitment c ->
  Z.of_nat (length pre) <= INT_MAX ->
  ComputeProof fuel (GetBlockHash prev)
    (BlockMerkleRoot
       (<[0%nat := {| nVersion := nVersion coinbaseTx;
                      vin := vin coinbaseTx;
                      vout := pre ++ post;
                      nLockTime := nLockTime coinbaseTx |}]> (vtx block)))
    params rng = Done (expected, rng') ->
  VerifyBlock fuel block (Some prev) params rng
  = Done (bool_decide (drop 6 (scriptPubKey c) = u256_bytes expected), rng')
  /\ (drop 6 (scriptPubKey c) <> u256_bytes expected ->
      VerifyBlock fuel block (Some prev) params rng = Done (false, rng')).
Proof.
  intros Hcb Hvout Hnone Hc Hidx Hexp.
  rewrite (VerifyBlock_one_commitment _ _ _ _ _ _ _ _ _ Hcb Hvout Hnone Hc Hidx).
  rewrite Hexp. cbn [mbind outcome_bind]. split; [reflexivity|].
  intros Hne. now rewrite bool_decide_eq_false_2.
Qed.

(** A commitment to another value than the proof of the block, between the
    two outputs of the coinbase, is rejected. *)
Lemma VerifyBlock_single_commitment_witness :
  ComputeProof (host := Reference.pinned) 8 seed_one
    (@BlockMerkleRoot Reference.pinned
       [coinbase_of [plain_output; plain_output]])
    {| nTCCPChallengeSize := 500 |} tt
  = Done (example_expected, tt)
  /\ drop 6 (scriptPubKey (commitment_output (host := Reference.pinned)
                             seed_one))
     <> u256_bytes example_expected
  /\ VerifyBlock (host := Reference.pinned) 8
       {| vtx := [ coinbase_of
                     [plain_output;
                      commitment_output (host := Reference.pinned) seed_one;
                      plain_output] ] |}
       (Some {| GetBlockHash := seed_one |})
       {| nTCCPChallengeSize := 500 |} tt
     = Done (false, tt).
Proof.
  assert (Hexp : ComputeProof (host := Reference.pinned) 8 seed_one
            (@BlockMerkleRoot Reference.pinned
               [coinbase_of [plain_output; plain_output]])
            {| nTCCPChallengeSize := 500 |} tt
          = Done (example_expected, tt)) by (vm_compute; reflexivity).
  assert (Hne : drop 6 (scriptPubKey
                          (commitment_output (host := Reference.pinned)
                             seed_one))
                <> u256_bytes example_expected)
    by (vm_compute; discriminate).
  split; [exact Hexp|]. split; [exact Hne|].
  refine (proj2 (VerifyBlock_single_commitment (host := Reference.pinned) 8
                   {| vtx := [ coinbase_of
                                 [plain_output;
                                  commitment_output (host := Reference.pinned)
                                    seed_one;
                                  plain_output] ] |}
                   (coinbase_of
                      [plain_output;
                       commitment_output (host := Reference.pinned) seed_one;
                       plain_output])
                   [plain_output] [plain_output]
                   (commitment_output (host := Reference.pinned) seed_one)
                   {| GetBlockHash := seed_one |}
                   {| nTCCPChallengeSize := 500 |}
                   example_expected tt tt _ _ _ _ _ _) Hne).
  - reflexivity.
  - reflexivity.
  - vm_compute. reflexivity.
  - apply reference_commitment_output.
  - vm_compute. discriminate.
  - exact Hexp.
Defined.

(** X9. The commitment binds the block: two non-genesis blocks that differ
    in the script of their single commitment output only, verified from
    the same random context, are not both accepted. *)
Theorem VerifyBlock_unique_commitment {host : Host} (fuel : nat)
    (tail : list CTransaction) (version locktime : Z) (inputs : list CTxIn)
    (pre post : list CTxOut) (amount : Z) (script1 script2 : CScript)
    (prev : CBlockIndex) (params : Params) (rng rng1 rng2 : Rand) :
  count_commitments (pre ++ post) = 0%nat ->
  Z.of_nat (length pre) <= INT_MAX ->
  VerifyBlock fuel
    {| vtx := {| nVersion := version; vin := inputs;
                 vout := pre ++ {| nValue := amount;
                                   scriptPubKey := script1 |} :: post;
                 nLockTime := locktime |} :: tail |}
    (Some prev) params rng = Done (true, rng1) ->
  VerifyBlock fuel
    {| vtx := {| nVersion := version; vin := inputs;
                 vout := pre ++ {| nValue := amount;
                                   scriptPubKey := script2 |} :: post;
                 nLockTime := locktime |} :: tail |}
    (Some prev) params rng = Done (true, rng2) ->
  script1 = script2.
Proof.
  intros Hnone Hidx Hv1 Hv2.
  set (c1 := {| nValue := amount; scriptPubKey := script1 |}) in *.
  set (c2 := {| nValue := amount; scriptPubKey := script2 |}) in *.
  assert (Hpre : count_commitments pre = 0%nat)
    by (rewrite count_commitments_app in Hnone; lia).
  assert (Hpost : count_commitments post = 0%nat)
    by (rewrite count_commitments_app in Hnone; lia).
  assert (Hyes : forall (c : CTxOut) (r : Rand),
            VerifyBlock fuel
              {| vtx := {| nVersion := version; vin := inputs;
                           vout := pre ++ c :: post;
                           nLockTime := locktime |} :: tail |}
              (Some prev) params rng = Done (true, r) ->
            is_commitment c).
  { intros c r Hv. destruct (decide (is_commitment c)) as [Hc|Hc];
      [exact Hc|exfalso].
    erewrite VerifyBlock_coinbase in Hv by reflexivity.
    cbn [vout] in Hv.
    rewrite scan_outputs_none in Hv; [discriminate Hv|].
    rewrite count_commitments_app, count_commitments_cons_no by exact Hc.
    lia. }
  pose proof (Hyes c1 rng1 Hv1) as Hc1.
  pose proof (Hyes c2 rng2 Hv2) as Hc2.
  erewrite VerifyBlock_one_commitment in Hv1
    by (try reflexivity; assumption).
  erewrite VerifyBlock_one_commitment in Hv2
    by (try reflexivity; assumption).
  cbn [nVersion vin nLockTime vtx] in Hv1, Hv2.
  destruct (ComputeProof _ _ _ _ _) as [[e r]| |]; [|done|done].
  cbn [mbind outcome_bind] in Hv1, Hv2.
  injection Hv1 as Hb1 _. injection Hv2 as Hb2 _.
  apply bool_decide_eq_true in Hb1. apply bool_decide_eq_true in Hb2.
  rewrite (commitment_layout_prefix script1 Hc1).
  rewrite (commitment_layout_prefix script2 Hc2).
  cbn [scriptPubKey c1 c2] in Hb1, Hb2. now rewrite Hb1, Hb2.
Qed.

(** The block of the round trip, taken twice. *)
Lemma VerifyBlock_unique_commitment_witness :
  VerifyBlock (host := Reference.pinned) 8
    {| vtx := {| nVersion := 1; vin := [];
                 vout := [plain_output]
                         ++ {| nValue := 0;
                               scriptPubKey :=
                                 encode_commitment (host := Reference.pinned)
                                   example_expected |} :: [plain_output];
                 nLockTime := 0 |} :: [] |}
    (Some {| GetBlockHash := seed_one |})
    {| nTCCPChallengeSize := 500 |} tt = Done (true, tt)
  /\ encode_commitment (host := Reference.pinned) example_expected
     = encode_commitment (host := Reference.pinned) example_expected.
Proof.
  assert (Hv : VerifyBlock (host := Reference.pinned) 8
            {| vtx := {| nVersion := 1; vin := [];
                         vout := [plain_output]
                                 ++ {| nValue := 0;
                                       scriptPubKey :=
                                         encode_commitment
                                           (host := Reference.pinned)
                                           example_expected |}
                                    :: [plain_output];
                         nLockTime := 0 |} :: [] |}
            (Some {| GetBlockHash := seed_one |})
            {| nTCCPChallengeSize := 500 |} tt = Done (true, tt))
    by (vm_compute; reflexivity).
  split; [exact Hv|].
  apply (VerifyBlock_unique_commitment (host := Reference.pinned) 8 [] 1 0 []
           [plain_output] [plain_output] 0
           (encode_commitment (host := Reference.pinned) example_expected)
           (encode_commitment (host := Reference.pinned) example_expected)
           {| GetBlockHash := seed_one |} {| nTCCPChallengeSize := 500 |}
           tt tt tt).
  - vm_compute. reflexivity.
  - vm_compute. discriminate.
  - exact Hv.
  - exact Hv.
Defined.

(** ** Edge cases of [VerifyBlock] *)

(** X10. The comparison of line 96 is between a vector of four bytes and
    [TCCP_MAGIC_BYTES]: if the tag does not have exactly four bytes no
    script is a commitment, and [VerifyBlock] returns false for every
    non-genesis block with a coinbase, without computing any proof. *)
Theorem VerifyBlock_magic_size {host : Host} (fuel : nat) (block : CBlock)
    (coinbaseTx : CTransaction) (prev : CBlockIndex) (params : Params)
    (rng : Rand) :
  length TCCP_MAGIC_BYTES <> 4%nat ->
  vtx block !! 0%nat = Some coinbaseTx ->
  VerifyBlock fuel block (Some prev) params rng = Done (false, rng).
Proof.
  intros Hm Hcb.
  rewrite (VerifyBlock_coinbase _ _ _ _ _ _ Hcb).
  rewrite scan_outputs_none by (apply bad_magic_no_commitment; exact Hm).
  reflexivity.
Qed.

(** With a tag of three bytes the block of the round trip is rejected. *)
Lemma VerifyBlock_magic_size_witness :
  length (@TCCP_MAGIC_BYTES (with_magic Reference.pinned [x54; x43; x43]))
  <> 4%nat
  /\ VerifyBlock (host := with_magic Reference.pinned [x54; x43; x43]) 8
       {| vtx := [ coinbase_of
                     [plain_output;
                      commitment_output (host := Reference.pinned)
                        example_expected;
                      plain_output] ] |}
       (Some {| GetBlockHash := seed_one |})
       {| nTCCPChallengeSize := 500 |} tt
     = Done (false, tt).
Proof.
  assert (Hm : length (@TCCP_MAGIC_BYTES
                         (with_magic Reference.pinned [x54; x43; x43]))
               <> 4%nat) by (vm_compute; discriminate).
  split; [exact Hm|].
  apply (VerifyBlock_magic_size
           (host := with_magic Reference.pinned [x54; x43; x43]) 8
           {| vtx := [ coinbase_of
                         [plain_output;
                          commitment_output (host := Reference.pinned)
                            example_expected;
                          plain_output] ] |}
           (coinbase_of
              [plain_output;
               commitment_output (host := Reference.pinned) example_expected;
               plain_output])).
  - exact Hm.
  - reflexivity.
Defined.

(** X11. [VerifyBlock] reads [block.vtx[0]] without a test: for a
    non-genesis block it leaves the transaction vector exactly when the
    block has no transaction, as long as the coinbase, if there is one, has
    at most [2^31] outputs. *)
Theorem VerifyBlock_empty_block {host : Host} (fuel : nat) (block : CBlock)
    (prev : CBlockIndex) (params : Params) (rng : Rand) :
  (forall coinbaseTx, vtx block !! 0%nat = Some coinbaseTx ->
                      Z.of_nat (length (vout coinbaseTx)) <= 2 ^ 31) ->
  VerifyBlock fuel block (Some prev) params rng = OutOfBounds
  <-> vtx block = [].
Proof.
  intros Hsmall. split.
  - intros Hv. destruct (vtx block) as [|coinbaseTx tail] eqn:Hvtx;
      [reflexivity|exfalso].
    assert (Hcb : vtx block !! 0%nat = Some coinbaseTx) by now rewrite Hvtx.
    exact (VerifyBlock_no_fault fuel block coinbaseTx prev params rng Hcb
             (Hsmall coinbaseTx eq_refl) Hv).
  - intros Hvtx. unfold VerifyBlock, vector_at. now rewrite Hvtx.
Qed.

(** The block without transactions, and a block of one transaction. *)
Lemma VerifyBlock_empty_block_witness :
  VerifyBlock (host := Reference.pinned) 8 {| vtx := [] |}
    (Some {| GetBlockHash := seed_one |})
    {| nTCCPChallengeSize := 500 |} tt
  = OutOfBounds
  /\ VerifyBlock (host := Reference.pinned) 8
       {| vtx := [coinbase_of [plain_output]] |}
       (Some {| GetBlockHash := seed_one |})
       {| nTCCPChallengeSize := 500 |} tt
     <> OutOfBounds.
Proof.
  split.
  - apply (VerifyBlock_empty_block (host := Reference.pinned) 8
             {| vtx := [] |}).
    + intros coinbaseTx Hcb. discriminate Hcb.
    + reflexivity.
  - intros Hv.
    apply (VerifyBlock_empty_block (host := Reference.pinned) 8
             {| vtx := [coinbase_of [plain_output]] |}) in Hv.
    + discriminate Hv.
    + intros coinbaseTx [= <-]. vm_compute. discriminate.
Defined.

(** X12. The proof covers the block without the commitment output, so the
    answer of [VerifyBlock] depends on that output through its script
    only: moving the single commitment to another position an [int] holds,
    among the same other outputs in the same order, or changing the amount
    it carries, changes nothing of the outcome. *)
Theorem VerifyBlock_commitment_place {host : Host} (fuel : nat)
    (tail : list CTransaction) (version locktime : Z) (inputs : list CTxIn)
    (pre post pre' post' : list CTxOut) (amount amount' : Z)
    (script : CScript) (prev : CBlockIndex) (params : Params) (rng : Rand) :
  pre ++ post = pre' ++ post' ->
  count_commitments (pre ++ post) = 0%nat ->
  Z.of_nat (length pre) <= INT_MAX ->
  Z.of_nat (length pre') <= INT_MAX ->
  VerifyBlock fuel
    {| vtx := {| nVersion := version; vin := inputs;
                 vout := pre ++ {| nValue := amount;
                                   scriptPubKey := script |} :: post;
                 nLockTime := locktime |} :: tail |}
    (Some prev) params rng
  = VerifyBlock fuel
      {| vtx := {| nVersion := version; vin := inputs;
                   vout := pre' ++ {| nValue := amount';
                                      scriptPubKey := script |} :: post';
                   nLockTime := locktime |} :: tail |}
      (Some prev) params rng.
Proof.
  intros Hsame Hnone Hidx Hidx'.
  assert (Hnone' : count_commitments (pre' ++ post') = 0%nat)
    by now rewrite <- Hsame.
  destruct (decide (commitment_layout script)) as [Hc|Hc].
  - erewrite (VerifyBlock_one_commitment fuel _ _ pre _ post)
      by (try reflexivity; assumption).
    erewrite (VerifyBlock_one_commitment fuel _ _ pre' _ post')
      by (try reflexivity; assumption).
    cbn [nVersion vin nLockTime vtx scriptPubKey]. now rewrite Hsame.
  - rewrite count_commitments_app in Hnone, Hnone'.
    erewrite !VerifyBlock_coinbase by reflexivity. cbn [vout].
    rewrite !scan_outputs_none; [reflexivity| |].
    + rewrite count_commitments_app, count_commitments_cons_no by exact Hc.
      lia.
    + rewrite count_commitments_app, count_commitments_cons_no by exact Hc.
      lia.
Qed.

(** The commitment of the round trip moved from the middle of the coinbase
    to its front, with another amount. *)
Lemma VerifyBlock_commitment_place_witness :
  VerifyBlock (host := Reference.pinned) 8
    {| vtx := {| nVersion := 1; vin := [];
                 vout := [plain_output]
                         ++ {| nValue := 0;
                               scriptPubKey :=
                                 encode_commitment (host := Reference.pinned)
                                   example_expected |} :: [plain_output];
                 nLockTime := 0 |} :: [] |}
    (Some {| GetBlockHash := seed_one |})
    {| nTCCPChallengeSize := 500 |} tt
  = VerifyBlock (host := Reference.pinned) 8
      {| vtx := {| nVersion := 1; vin := [];
                   vout := []
                           ++ {| nValue := 5000;
                                 scriptPubKey :=
                                   encode_commitment (host := Reference.pinned)
                                     example_expected |}
                              :: [plain_output; plain_output];
                   nLockTime := 0 |} :: [] |}
      (Some {| GetBlockHash := seed_one |})
      {| nTCCPChallengeSize := 500 |} tt.
Proof.
  apply (VerifyBlock_commitment_place (host := Reference.pinned) 8 [] 1 0 []
           [plain_output] [plain_output] [] [plain_output; plain_output]
           0 5000
           (encode_commitment (host := Reference.pinned) example_expected)).
  - reflexivity.
  - vm_compute. reflexivity.
  - vm_compute. discriminate.
  - vm_compute. discriminate.
Defined.

(** ** Zero or several commitments are rejected *)

(** X13. The two rejections of lines 97 and 104.  A non-genesis block whose
    coinbase has no output of the commitment layout is rejected.  So is one
    whose coinbase has two or more, when the position of the first of them
    is not stored as [-1] at line 99 (every position below [2^32 - 1] is
    such a one): the scan returns false at the second.  In both cases no
    challenge is built and the random context is left as it was. *)
Theorem VerifyBlock_rejects_commitment_count {host : Host} (fuel : nat)
    (block : CBlock) (coinbaseTx : CTransaction) (prev : CBlockIndex)
    (params : Params) (rng : Rand) :
  vtx block !! 0%nat = Some coinbaseTx ->
  count_commitments (vout coinbaseTx) = 0%nat
  \/ (exists pre c post,
        vout coinbaseTx = pre ++ c :: post
        /\ count_commitments pre = 0%nat
        /\ is_commitment c
        /\ count_commitments post <> 0%nat
        /\ to_int (Z.of_nat (length pre)) <> -1) ->
  VerifyBlock fuel block (Some prev) params rng = Done (false, rng).
Proof.
  intros Hcb [H0|(pre & c & post & Hvout & Hpre & Hc & Hpost & Hidx)];
    rewrite (VerifyBlock_coinbase _ _ _ _ _ _ Hcb).
  - rewrite scan_outputs_none by exact H0. reflexivity.
  - rewrite Hvout, scan_outputs_skip by exact Hpre.
    destruct (scan_outputs_cons_yes c post (0 + length pre) uint256_zero (-1) Hc)
      as (p' & _ & ->).
    rewrite bool_decide_eq_false_2 by lia.
    rewrite scan_outputs_second; [reflexivity|exact Hidx|exact Hpost].
Qed.

(** A coinbase with two commitments among three outputs is rejected. *)
Lemma VerifyBlock_rejects_commitment_count_witness :
  count_commitments (host := Reference.pinned)
    [plain_output; commitment_output (host := Reference.pinned) uint256_zero]
  <> 0%nat
  /\ VerifyBlock (host := Reference.pinned) 8
       {| vtx := [ coinbase_of
                     [commitment_output (host := Reference.pinned) seed_one;
                      plain_output;
                      commitment_output (host := Reference.pinned)
                        uint256_zero] ] |}
       (Some {| GetBlockHash := uint256_zero |})
       {| nTCCPChallengeSize := 500 |} tt
     = Done (false, tt).
Proof.
  assert (Hpost : count_commitments (host := Reference.pinned)
            [plain_output;
             commitment_output (host := Reference.pinned) uint256_zero]
          <> 0%nat) by (vm_compute; discriminate).
  split; [exact Hpost|].
  apply (VerifyBlock_rejects_commitment_count (host := Reference.pinned) 8
           {| vtx := [ coinbase_of
                         [commitment_output (host := Reference.pinned) seed_one;
                          plain_output;
                          commitment_output (host := Reference.pinned)
                            uint256_zero] ] |}
           (coinbase_of
              [commitment_output (host := Reference.pinned) seed_one;
               plain_output;
               commitment_output (host := Reference.pinned) uint256_zero])).
  - reflexivity.
  - right.
    exists [], (commitment_output (host := Reference.pinned) seed_one),
      [plain_output; commitment_output (host := Reference.pinned) uint256_zero].
    split; [reflexivity|]. split; [reflexivity|].
    split; [apply reference_commitment_output|].
    split; [exact Hpost|]. vm_compute. discriminate.
Defined.
